(** * LogBuddy: the event store, its queries, analytics, export and webhook task

    A shallow embedding of [main.py].  The SQLite table [log_entries] is a list
    of rows in ascending rowid, every endpoint is a computation in a state and
    exception monad over that table, and [json.dumps] / [json.loads] are
    embedded as a printer and a parser over strings. *)

From Stdlib Require Import ZArith NArith String Ascii List Lia Sorting.Sorted.
From Stdlib Require Import DecimalString DecimalFacts DecimalPos DecimalN DecimalZ.
From stdpp Require Import base option list sorting strings gmap fin_maps.

Local Open Scope string_scope.

(** ** Python's [json] module, on values without floats

    A [dict] keeps its items in insertion order and has pairwise distinct keys;
    here it is the list of its items.  Text is restricted to code points below
    256, one [ascii] each; numbers are Python integers. *)
Module Json.

#[local] Set Warnings "-register-all".

Inductive value : Type :=
| JNull
| JBool (b : bool)
| JInt (n : Z)
| JStr (s : string)
| JList (items : list value)
| JDict (items : list (string * value)).

Definition quote : ascii := "034"%char.
Definition backslash : ascii := "\"%char.

(** ESCAPE_DCT of json.encoder, and the four-digit form for the rest. *)
Definition hexdigit (n : N) : ascii :=
  match n with
  | 0 => "0" | 1 => "1" | 2 => "2" | 3 => "3" | 4 => "4" | 5 => "5"
  | 6 => "6" | 7 => "7" | 8 => "8" | 9 => "9" | 10 => "a" | 11 => "b"
  | 12 => "c" | 13 => "d" | 14 => "e" | _ => "f"
  end%N%char.

Definition printable (c : ascii) : bool :=
  ((32 <=? N_of_ascii c) && (N_of_ascii c <=? 126))%N.

Definition escape_char (c : ascii) : string :=
  if Ascii.eqb c quote then String backslash (String quote "")
  else if Ascii.eqb c backslash then String backslash (String backslash "")
  else if Ascii.eqb c "010" then String backslash "n"
  else if Ascii.eqb c "013" then String backslash "r"
  else if Ascii.eqb c "009" then String backslash "t"
  else if Ascii.eqb c "008" then String backslash "b"
  else if Ascii.eqb c "012" then String backslash "f"
  else if printable c then String c ""
  else String backslash
         (String "u" (String "0" (String "0"
           (String (hexdigit (N_of_ascii c / 16))
             (String (hexdigit (N_of_ascii c mod 16)) ""))))).

Fixpoint escape (s : string) : string :=
  match s with
  | EmptyString => ""
  | String c s' => escape_char c +:+ escape s'
  end.

(** py_encode_basestring_ascii *)
Definition encode_basestring_ascii (s : string) : string :=
  String quote (escape s +:+ String quote "").

(** int.__repr__ *)
Definition int_repr (n : Z) : string :=
  match Z.to_int n with
  | Decimal.Pos u => NilEmpty.string_of_uint u
  | Decimal.Neg u => String "-" (NilEmpty.string_of_uint u)
  end.

(** json.dumps with the default separators [", "] and [": "]. *)
Fixpoint dumps (v : value) : string :=
  match v with
  | JNull => "null"
  | JBool true => "true"
  | JBool false => "false"
  | JInt n => int_repr n
  | JStr s => encode_basestring_ascii s
  | JList items =>
      let fix elements (l : list value) : string :=
        match l with
        | [] => ""
        | [x] => dumps x
        | x :: l' => dumps x +:+ ", " +:+ elements l'
        end in
      "[" +:+ elements items +:+ "]"
  | JDict items =>
      let fix members (l : list (string * value)) : string :=
        match l with
        | [] => ""
        | [(k, x)] => encode_basestring_ascii k +:+ ": " +:+ dumps x
        | (k, x) :: l' =>
            encode_basestring_ascii k +:+ ": " +:+ dumps x +:+ ", " +:+ members l'
        end in
      "{" +:+ members items +:+ "}"
  end.

(** The text between the brackets of a list and between the braces of a
    dict, as [dumps] writes it. *)
Fixpoint elements (l : list value) : string :=
  match l with
  | [] => ""
  | [x] => dumps x
  | x :: l' => dumps x +:+ ", " +:+ elements l'
  end.

Fixpoint members (l : list (string * value)) : string :=
  match l with
  | [] => ""
  | [(k, x)] => encode_basestring_ascii k +:+ ": " +:+ dumps x
  | (k, x) :: l' =>
      encode_basestring_ascii k +:+ ": " +:+ dumps x +:+ ", " +:+ members l'
  end.

(** *** Decoding *)

(** WHITESPACE of json.decoder *)
Definition is_ws (c : ascii) : bool :=
  Ascii.eqb c " " || Ascii.eqb c "009" || Ascii.eqb c "010" || Ascii.eqb c "013".

Fixpoint skip_ws (s : string) : string :=
  match s with
  | String c s' => if is_ws c then skip_ws s' else s
  | EmptyString => s
  end.

Definition hexval (c : ascii) : option N :=
  let n := N_of_ascii c in
  if ((48 <=? n) && (n <=? 57))%N then Some (n - 48)%N
  else if ((97 <=? n) && (n <=? 102))%N then Some (n - 87)%N
  else if ((65 <=? n) && (n <=? 70))%N then Some (n - 55)%N
  else None.

(** _decode_uXXXX followed by chr; code points from 256 on are outside the
    text of this model. *)
Definition decode_uXXXX (a b c d : ascii) : option ascii :=
  match hexval a, hexval b, hexval c, hexval d with
  | Some x, Some y, Some z, Some t =>
      let uni := (((x * 16 + y) * 16 + z) * 16 + t)%N in
      if (uni <? 256)%N then Some (ascii_of_N uni) else None
  | _, _, _, _ => None
  end.

(** BACKSLASH of json.decoder *)
Definition unescape (c : ascii) : option ascii :=
  if Ascii.eqb c quote then Some quote
  else if Ascii.eqb c backslash then Some backslash
  else if Ascii.eqb c "/" then Some "/"%char
  else if Ascii.eqb c "b" then Some "008"%char
  else if Ascii.eqb c "f" then Some "012"%char
  else if Ascii.eqb c "n" then Some "010"%char
  else if Ascii.eqb c "r" then Some "013"%char
  else if Ascii.eqb c "t" then Some "009"%char
  else None.

(** py_scanstring with strict=True, entered after the opening quote: the
    decoded text and what follows the closing quote. *)
Fixpoint scanstring (s : string) : option (string * string) :=
  match s with
  | EmptyString => None
  | String c s' =>
      if Ascii.eqb c quote then Some ("", s')
      else if Ascii.eqb c backslash then
        match s' with
        | String "u" (String h1 (String h2 (String h3 (String h4 s'')))) =>
            match decode_uXXXX h1 h2 h3 h4, scanstring s'' with
            | Some x, Some (r, rest) => Some (String x r, rest)
            | _, _ => None
            end
        | String e s'' =>
            match unescape e, scanstring s'' with
            | Some x, Some (r, rest) => Some (String x r, rest)
            | _, _ => None
            end
        | EmptyString => None
        end
      else if (N_of_ascii c <? 32)%N then None
      else
        match scanstring s' with
        | Some (r, rest) => Some (String c r, rest)
        | None => None
        end
  end.

Definition digit_of (c : ascii) : option (Decimal.uint -> Decimal.uint) :=
  match c with
  | "0" => Some Decimal.D0 | "1" => Some Decimal.D1 | "2" => Some Decimal.D2
  | "3" => Some Decimal.D3 | "4" => Some Decimal.D4 | "5" => Some Decimal.D5
  | "6" => Some Decimal.D6 | "7" => Some Decimal.D7 | "8" => Some Decimal.D8
  | "9" => Some Decimal.D9 | _ => None
  end%char.

Definition is_digit (c : ascii) : bool := bool_decide (is_Some (digit_of c)).

(** The longest run of decimal digits at the head of [s]. *)
Fixpoint scan_digits (s : string) : Decimal.uint * string :=
  match s with
  | String c s' =>
      match digit_of c with
      | Some d => let '(u, rest) := scan_digits s' in (d u, rest)
      | None => (Decimal.Nil, s)
      end
  | EmptyString => (Decimal.Nil, s)
  end.

(** The integer group of NUMBER_RE: [0], or a nonzero digit and then digits. *)
Definition scan_integer (s : string) : option (Decimal.uint * string) :=
  match s with
  | String "0" s' => Some (Decimal.D0 Decimal.Nil, s')
  | String c _ => if is_digit c then Some (scan_digits s) else None
  | EmptyString => None
  end.

(** The fraction and exponent groups of NUMBER_RE: either makes a float. *)
Definition starts_frac (s : string) : bool :=
  match s with
  | String "." (String c _) => is_digit c
  | _ => false
  end.

Definition starts_exp (s : string) : bool :=
  match s with
  | String e s' =>
      (Ascii.eqb e "e" || Ascii.eqb e "E") &&
      match s' with
      | String g (String c _) =>
          is_digit g || ((Ascii.eqb g "+" || Ascii.eqb g "-") && is_digit c)
      | String g EmptyString => is_digit g
      | EmptyString => false
      end
  | EmptyString => false
  end.

Definition scan_number (s : string) : option (Z * string) :=
  let '(neg, body) :=
    match s with
    | String "-" s' => (true, s')
    | _ => (false, s)
    end in
  match scan_integer body with
  | Some (u, rest) =>
      if starts_frac rest || starts_exp rest then None
      else Some (Z.of_int (if neg then Decimal.Neg u else Decimal.Pos u), rest)
  | None => None
  end.

(** dict.__setitem__ on the item list: an existing key keeps its place. *)
Fixpoint dict_set (k : string) (x : value) (d : list (string * value))
  : list (string * value) :=
  match d with
  | [] => [(k, x)]
  | (k', x') :: d' =>
      if String.eqb k' k then (k', x) :: d' else (k', x') :: dict_set k x d'
  end.

(** dict(pairs) *)
Definition dict_of_pairs (pairs : list (string * value)) : list (string * value) :=
  fold_left (fun d kx => dict_set (fst kx) (snd kx) d) pairs [].

(** dict.get(key, default) *)
Fixpoint dict_get (d : list (string * value)) (k : string) (default : value) : value :=
  match d with
  | [] => default
  | (k', x) :: d' => if String.eqb k' k then x else dict_get d' k default
  end.

(** [s[idx:idx+1] == c]: what follows the character when it is there. *)
Definition expect (c : ascii) (s : string) : option string :=
  match s with
  | String c' s' => if Ascii.eqb c' c then Some s' else None
  | EmptyString => None
  end.

(** [s[idx:idx+len(w)] == w] *)
Fixpoint keyword (w : string) (s : string) : option string :=
  match w with
  | EmptyString => Some s
  | String c w' =>
      match expect c s with
      | Some s' => keyword w' s'
      | None => None
      end
  end.

(** scan_once, JSONArray and JSONObject of json.scanner / json.decoder.  The
    recursion of the Python code is on the nesting of the text; here every call
    spends one unit of [fuel]. *)
Fixpoint scan_once (fuel : nat) (s : string) {struct fuel} : option (value * string) :=
  match fuel with
  | O => None
  | S fuel =>
      match s with
      | EmptyString => None
      | String c s' =>
          if Ascii.eqb c quote then
            match scanstring s' with
            | Some (r, rest) => Some (JStr r, rest)
            | None => None
            end
          else if Ascii.eqb c "{" then
            match expect "}" (skip_ws s') with
            | Some rest => Some (JDict [], rest)
            | None =>
                match scan_members fuel (skip_ws s') with
                | Some (pairs, rest) => Some (JDict (dict_of_pairs pairs), rest)
                | None => None
                end
            end
          else if Ascii.eqb c "[" then
            match expect "]" (skip_ws s') with
            | Some rest => Some (JList [], rest)
            | None =>
                match scan_elements fuel (skip_ws s') with
                | Some (items, rest) => Some (JList items, rest)
                | None => None
                end
            end
          else if Ascii.eqb c "n" then
            match keyword "null" s with Some rest => Some (JNull, rest) | None => None end
          else if Ascii.eqb c "t" then
            match keyword "true" s with Some rest => Some (JBool true, rest) | None => None end
          else if Ascii.eqb c "f" then
            match keyword "false" s with Some rest => Some (JBool false, rest) | None => None end
          else
            match scan_number s with
            | Some (n, rest) => Some (JInt n, rest)
            | None => None
            end
      end
  end
with scan_elements (fuel : nat) (s : string) {struct fuel} : option (list value * string) :=
  match fuel with
  | O => None
  | S fuel =>
      match scan_once fuel s with
      | Some (x, rest) =>
          match expect "]" (skip_ws rest) with
          | Some rest' => Some ([x], rest')
          | None =>
              match expect "," (skip_ws rest) with
              | Some rest' =>
                  match scan_elements fuel (skip_ws rest') with
                  | Some (xs, rest'') => Some (x :: xs, rest'')
                  | None => None
                  end
              | None => None
              end
          end
      | None => None
      end
  end
with scan_members (fuel : nat) (s : string) {struct fuel}
  : option (list (string * value) * string) :=
  match fuel with
  | O => None
  | S fuel =>
      match expect quote s with
      | Some s1 =>
          match scanstring s1 with
          | Some (k, s2) =>
              match expect ":" (skip_ws s2) with
              | Some s3 =>
                  match scan_once fuel (skip_ws s3) with
                  | Some (x, rest) =>
                      match expect "}" (skip_ws rest) with
                      | Some rest' => Some ([(k, x)], rest')
                      | None =>
                          match expect "," (skip_ws rest) with
                          | Some rest' =>
                              match scan_members fuel (skip_ws rest') with
                              | Some (kxs, rest'') => Some ((k, x) :: kxs, rest'')
                              | None => None
                              end
                          | None => None
                          end
                      end
                  | None => None
                  end
              | None => None
              end
          | None => None
          end
      | None => None
      end
  end.

(** JSONDecoder.decode: one value between optional whitespace, nothing after. *)
Definition loads (s : string) : option value :=
  match scan_once (S (String.length s)) (skip_ws s) with
  | Some (v, rest) =>
      match skip_ws rest with
      | EmptyString => Some v
      | String _ _ => None
      end
  | None => None
  end.

(** What may follow a value in a JSON text: nothing, or a comma or a closing
    bracket or brace. *)
Definition delimited (s : string) : Prop :=
  match s with
  | EmptyString => True
  | String c _ => c = ","%char \/ c = "]"%char \/ c = "}"%char
  end.

Definition no_digit (s : string) : Prop :=
  match s with
  | EmptyString => True
  | String c _ => digit_of c = None
  end.

(** A decimal numeral as Python writes it: [0], or digits with a nonzero head. *)
Definition canonical (u : Decimal.uint) : Prop :=
  match u with
  | Decimal.Nil => False
  | Decimal.D0 u' => u' = Decimal.Nil
  | _ => True
  end.

(** The first character of a value's text: not whitespace, not a closing
    bracket or brace. *)
Definition opens_value (s : string) : Prop :=
  match s with
  | EmptyString => False
  | String c _ =>
      is_ws c = false /\ Ascii.eqb c "]" = false /\ Ascii.eqb c "}" = false
  end.

(** A Python value of this shape: the keys of every dict are distinct. *)
Fixpoint well_formed (v : value) : Prop :=
  match v with
  | JList items => Forall id (map well_formed items)
  | JDict items =>
      NoDup (map fst items) /\ Forall id (map (fun kx => well_formed (snd kx)) items)
  | _ => True
  end.

End Json.


(** ** The mapped class [LogEntry] and the request model [LogEntryCreate] *)

Module LogEntry.
Record t : Type := mk {
  id : Z;
  timestamp : Z;            (* a naive UTC datetime, in microseconds *)
  level : string;
  message : string;
  source : string;
  user_id : option string;
  extra_data : option string  (* JSON string *)
}.

(** [LogEntry(level=..., ...)]: [id] and [timestamp] are filled by the INSERT. *)
Definition init (level message source : string) (user_id extra_data : option string)
  : Z -> Z -> t :=
  fun id timestamp => mk id timestamp level message source user_id extra_data.
End LogEntry.

Module LogEntryCreate.
Record t : Type := mk {
  level : string;
  message : string;
  source : string;
  user_id : option string;
  extra_data : option (list (string * Json.value))
}.
End LogEntryCreate.

(** The rows of the DataFrame built by [get_analytics]. *)
Module Frame.
Record t : Type := mk {
  id : Z;
  timestamp : Z;
  level : string;
  source : string;
  message : string
}.
End Frame.

(** [to_dict('records')] after the timestamps are turned into strings. *)
Module Activity.
Record t : Type := mk {
  id : Z;
  timestamp : string;
  level : string;
  source : string;
  message : string
}.
End Activity.

(** The rows of the DataFrame written by [export_logs_csv], in column order. *)
Module ExportRow.
Record t : Type := mk {
  id : Z;
  timestamp : Z;
  level : string;
  message : string;
  source : string;
  user_id : option string
}.
End ExportRow.

Record AnalyticsResponse : Type := {
  total_logs : nat;
  logs_by_level : gmap string nat;
  logs_by_source : gmap string nat;
  recent_activity : list Activity.t
}.

Record ExportResponse : Type := {
  export_message : string;
  filename : string;
  records_exported : nat
}.

Record WebhookResponse : Type := {
  status : string;
  webhook_message : string
}.

(** ** State, environment and exceptions *)

Inductive exception : Type :=
| OperationalError                                   (* sqlalchemy: the engine refuses the statement *)
| EncoderError                                       (* json.dumps raises *)
| OSError                                            (* the CSV file cannot be written *)
| HTTPException (status_code : Z) (detail : string).

Inductive outcome (A : Type) : Type :=
| Returned (a : A)
| Raised (e : exception).
Arguments Returned {A} a.
Arguments Raised {A} e.

(** What one call reads from outside: the two clocks and whether the storage
    engine, the encoder and the disk fail during the call. *)
Record Env : Type := {
  utcnow : Z;
  now : Z;
  db_fails : bool;
  json_fails : bool;
  disk_fails : bool
}.

Record World : Type := {
  log_entries : list LogEntry.t;                       (* the table, in ascending rowid *)
  files : gmap string (list ExportRow.t);              (* CSV files by name *)
  background_tasks : list (list (string * Json.value)) (* payloads awaiting process_webhook_data *)
}.

Definition with_log_entries (rows : list LogEntry.t) (w : World) : World :=
  {| log_entries := rows; files := files w; background_tasks := background_tasks w |}.

Definition with_files (fs : gmap string (list ExportRow.t)) (w : World) : World :=
  {| log_entries := log_entries w; files := fs; background_tasks := background_tasks w |}.

Definition with_background_tasks (ts : list (list (string * Json.value))) (w : World) : World :=
  {| log_entries := log_entries w; files := files w; background_tasks := ts |}.

Definition M (A : Type) : Type := Env -> World -> outcome A * World.

Definition ret {A} (a : A) : M A := fun _ w => (Returned a, w).

Definition raise {A} (e : exception) : M A := fun _ w => (Raised e, w).

Definition bind {A B} (c : M A) (k : A -> M B) : M B :=
  fun env w =>
    match c env w with
    | (Returned a, w') => k a env w'
    | (Raised e, w') => (Raised e, w')
    end.

(** [try: body  except Exception as e: handler e] *)
Definition try_except {A} (body : M A) (handler : exception -> M A) : M A :=
  fun env w =>
    match body env w with
    | (Returned a, w') => (Returned a, w')
    | (Raised e, w') => handler e env w'
    end.

Declare Scope py_scope.
Delimit Scope py_scope with py.
Notation "x <- c ;; k" := (bind c (fun x => k))
  (at level 100, c at next level, right associativity) : py_scope.
Notation "c ;; k" := (bind c (fun _ => k))
  (at level 100, right associativity) : py_scope.

(** ** The session: INSERT and SELECT on [log_entries] *)

(** SQLite gives a new row of an INTEGER PRIMARY KEY table the largest rowid
    in the table plus one, and 1 in an empty table. *)
Definition next_rowid (rows : list LogEntry.t) : Z :=
  match map LogEntry.id rows with
  | [] => 1
  | i :: ids => 1 + foldr Z.max i ids
  end%Z.

(** [db.add(x); db.commit(); db.refresh(x)]: the column default
    [datetime.utcnow] is evaluated for the INSERT. *)
Definition add_commit (x : Z -> Z -> LogEntry.t) : M LogEntry.t :=
  fun env w =>
    if db_fails env then (Raised OperationalError, w)
    else
      let row := x (next_rowid (log_entries w)) (utcnow env) in
      (Returned row, with_log_entries (log_entries w ++ [row]) w).

(** A [Query] on LogEntry: the criteria added by [filter], and OFFSET / LIMIT. *)
Record Query : Type := {
  criteria : list (LogEntry.t -> bool);
  q_offset : option Z;
  q_limit : option Z
}.

Definition query : Query := {| criteria := []; q_offset := None; q_limit := None |}.

Definition filter_by (p : LogEntry.t -> bool) (q : Query) : Query :=
  {| criteria := criteria q ++ [p]; q_offset := q_offset q; q_limit := q_limit q |}.

Definition offset (n : Z) (q : Query) : Query :=
  {| criteria := criteria q; q_offset := Some n; q_limit := q_limit q |}.

Definition limit (n : Z) (q : Query) : Query :=
  {| criteria := criteria q; q_offset := q_offset q; q_limit := Some n |}.

(** SQLite: a negative OFFSET counts as zero, a negative LIMIT is no limit. *)
Definition sql_offset (o : option Z) (rows : list LogEntry.t) : list LogEntry.t :=
  match o with
  | Some n => drop (Z.to_nat n) rows
  | None => rows
  end.

Definition sql_limit (o : option Z) (rows : list LogEntry.t) : list LogEntry.t :=
  match o with
  | Some n => if (n <? 0)%Z then rows else take (Z.to_nat n) rows
  | None => rows
  end.

Definition select (q : Query) (rows : list LogEntry.t) : list LogEntry.t :=
  sql_limit (q_limit q)
    (sql_offset (q_offset q)
      (List.filter (fun r => forallb (fun p => p r) (criteria q)) rows)).

(** [q.all()] *)
Definition all (q : Query) : M (list LogEntry.t) :=
  fun env w =>
    if db_fails env then (Raised OperationalError, w)
    else (Returned (select q (log_entries w)), w).

(** ** pandas and Python helpers *)

(** Truth value of an [Optional[str]] and of an [Optional[dict]]. *)
Definition truthy_str (o : option string) : bool :=
  match o with
  | Some s => negb (String.eqb s "")
  | None => false
  end.

Definition truthy_dict (o : option (list (string * Json.value))) : bool :=
  match o with
  | Some (_ :: _) => true
  | _ => false
  end.

(** [Series.value_counts().to_dict()] *)
Definition value_counts (col : list string) : gmap string nat :=
  foldr (fun k m => <[k := S (default 0 (m !! k))]> m) ∅ col.

(** [DataFrame.tail(n)] *)
Definition tail {A} (n : nat) (df : list A) : list A :=
  drop (length df - n) df.

(** [sum(d.values())] *)
Definition sum_values (d : gmap string nat) : nat :=
  map_fold (fun _ n acc => n + acc) 0 d.

Definition timedelta_hours (h : Z) : Z := (h * 3600 * 1000000)%Z.

(** [json.dumps] as called by the service. *)
Definition json_dumps (v : Json.value) : M string :=
  fun env w =>
    if json_fails env then (Raised EncoderError, w)
    else (Returned (Json.dumps v), w).

(** ** The weather endpoint *)

(** A value of a [Dict[str, Any]]: a JSON value, or a float written as
    [digits * 10 ^ exponent]. *)
Inductive any : Type :=
| AJson (v : Json.value)
| AFloat (digits exponent : Z).

Module ExternalAPIResponse.
Record t : Type := mk {
  success : bool;
  data : option (list (string * any));
  error : option string
}.
End ExternalAPIResponse.

(** What the call of [requests.get] does: it returns a response, with its
    status code and the mapping that [response.json()] and the response
    model make of its body ([None] when either raises ValueError), or it
    raises. *)
Inductive requests_get : Type :=
| Response (status_code : Z) (json : option (list (string * any)))
| RaisesTimeout             (* requests.exceptions.Timeout *)
| RaisesRequestException    (* any other requests.exceptions.RequestException *)
| RaisesException.          (* any other Exception *)

Definition mock_data (city : string) : list (string * any) :=
  [("city", AJson (Json.JStr city));
   ("temperature", AFloat 205 (-1));
   ("description", AJson (Json.JStr "Partly cloudy"));
   ("humidity", AJson (Json.JInt 65));
   ("note", AJson (Json.JStr "This is mock data - replace with actual API key for real data"))].

Definition get_weather_data (city : string) (net : requests_get) : ExternalAPIResponse.t :=
  match net with
  | Response status_code json =>
      match (if (status_code =? 200)%Z then json else None) with
      | Some body =>
          ExternalAPIResponse.mk true (Some body) None
      | None =>
          (* the response is not 200, or its body is not usable: mock data *)
          ExternalAPIResponse.mk true (Some (mock_data city)) None
      end
  | RaisesTimeout => ExternalAPIResponse.mk false None (Some "Request timeout")
  | RaisesRequestException => ExternalAPIResponse.mk false None (Some "Request failed")
  | RaisesException => ExternalAPIResponse.mk false None (Some "Internal server error")
  end.

(** [d.get(key)] on a [Dict[str, Any]]. *)
Fixpoint any_get (d : list (string * any)) (k : string) : option any :=
  match d with
  | [] => None
  | (k', x) :: d' => if String.eqb k' k then Some x else any_get d' k
  end.

Section Service.

(** Renderings by the Python runtime that the service calls and does not
    define: [datetime.isoformat], [strftime('%Y%m%d_%H%M%S')] and the [repr]
    of a list or a dict. *)
Variable isoformat : Z -> string.
Variable strftime : Z -> string.
Variable repr_container : Json.value -> string.

(** [str(x)], as the f-string applies it. *)
Definition py_str (x : Json.value) : string :=
  match x with
  | Json.JStr s => s
  | Json.JNull => "None"
  | Json.JBool true => "True"
  | Json.JBool false => "False"
  | Json.JInt n => Json.int_repr n
  | _ => repr_container x
  end.

(** [DataFrame.to_csv(csv_filename, index=False)]: the file holds the frame. *)
Definition to_csv (df : list ExportRow.t) (csv_filename : string) : M unit :=
  fun env w =>
    if disk_fails env then (Raised OSError, w)
    else (Returned tt, with_files (<[csv_filename := df]> (files w)) w).

(** [background_tasks.add_task(process_webhook_data, data, db)] *)
Definition add_task (data : list (string * Json.value)) : M unit :=
  fun _ w => (Returned tt, with_background_tasks (background_tasks w ++ [data]) w).

Local Open Scope py_scope.

(** ** The endpoints *)

Definition create_log_entry (log_entry : LogEntryCreate.t) : M LogEntry.t :=
  try_except
    (extra <- (if truthy_dict (LogEntryCreate.extra_data log_entry)
               then s <- json_dumps (Json.JDict (default [] (LogEntryCreate.extra_data log_entry))) ;;
                    ret (Some s)
               else ret None) ;;
     db_log <- add_commit
                 (LogEntry.init (LogEntryCreate.level log_entry)
                                (LogEntryCreate.message log_entry)
                                (LogEntryCreate.source log_entry)
                                (LogEntryCreate.user_id log_entry)
                                extra) ;;
     ret db_log)
    (fun _ => raise (HTTPException 500 "Failed to create log entry")).

Definition get_logs (skip lim : Z) (level source : option string)
  : M (list LogEntry.t) :=
  try_except
    (let q := query in
     let q := if truthy_str level
              then filter_by (fun r => String.eqb (LogEntry.level r) (default "" level)) q
              else q in
     let q := if truthy_str source
              then filter_by (fun r => String.eqb (LogEntry.source r) (default "" source)) q
              else q in
     logs <- all (limit lim (offset skip q)) ;;
     ret logs)
    (fun _ => raise (HTTPException 500 "Failed to retrieve logs")).

Definition frame_of (log : LogEntry.t) : Frame.t :=
  Frame.mk (LogEntry.id log) (LogEntry.timestamp log) (LogEntry.level log)
           (LogEntry.source log) (LogEntry.message log).

Definition activity_of (r : Frame.t) : Activity.t :=
  Activity.mk (Frame.id r) (isoformat (Frame.timestamp r)) (Frame.level r)
              (Frame.source r) (Frame.message r).

(** [df[df['timestamp'] >= t]] *)
Definition since (t : Z) (df : list Frame.t) : list Frame.t :=
  List.filter (fun r => (t <=? Frame.timestamp r)%Z) df.

(** The rows behind [recent_activity], before their timestamps are rendered. *)
Definition recent_rows (utc : Z) (df : list Frame.t) : list Frame.t :=
  let recent_df := since (utc - timedelta_hours 24) df in
  tail 10 recent_df.

Definition get_analytics : M AnalyticsResponse :=
  try_except
    (logs <- all query ;;
     match logs with
     | [] =>
         ret {| total_logs := 0; logs_by_level := ∅; logs_by_source := ∅;
                recent_activity := [] |}
     | _ :: _ =>
         let df := map frame_of logs in
         fun env =>
           ret {| total_logs := length df;
                  logs_by_level := value_counts (map Frame.level df);
                  logs_by_source := value_counts (map Frame.source df);
                  recent_activity := map activity_of (recent_rows (utcnow env) df) |}
               env
     end)
    (fun _ => raise (HTTPException 500 "Failed to generate analytics")).

Definition export_row_of (log : LogEntry.t) : ExportRow.t :=
  ExportRow.mk (LogEntry.id log) (LogEntry.timestamp log) (LogEntry.level log)
               (LogEntry.message log) (LogEntry.source log) (LogEntry.user_id log).

Definition export_logs_csv : M ExportResponse :=
  try_except
    (logs <- all query ;;
     let df := map export_row_of logs in
     fun env =>
       (let csv_filename := "logs_export_" +:+ strftime (now env) +:+ ".csv" in
        to_csv df csv_filename ;;
        ret {| export_message := "Export completed";
               filename := csv_filename;
               records_exported := length df |}) env)
    (fun _ => raise (HTTPException 500 "Failed to export logs")).

Definition handle_webhook (data : list (string * Json.value)) : M WebhookResponse :=
  try_except
    (add_task data ;;
     ret {| status := "accepted"; webhook_message := "Webhook data will be processed" |})
    (fun _ => raise (HTTPException 500 "Failed to process webhook")).

Definition process_webhook_data (data : list (string * Json.value)) : M unit :=
  try_except
    (s <- json_dumps (Json.JDict data) ;;
     _ <- add_commit
            (LogEntry.init "INFO"
               ("Webhook processed: " +:+ py_str (Json.dict_get data "type" (Json.JStr "unknown")))
               "webhook"
               None
               (Some s)) ;;
     ret tt)
    (fun _ => ret tt).

(** ** Runs of the service *)

Inductive request : Type :=
| PostLogs (log_entry : LogEntryCreate.t)
| GetLogs (skip lim : Z) (level source : option string)
| GetAnalytics
| GetExportCsv
| PostWebhook (data : list (string * Json.value))
| RunBackgroundTask.    (* the oldest pending task is run *)

Definition serve (r : request) (env : Env) (w : World) : World :=
  match r with
  | PostLogs log_entry => snd (create_log_entry log_entry env w)
  | GetLogs skip lim level source => snd (get_logs skip lim level source env w)
  | GetAnalytics => snd (get_analytics env w)
  | GetExportCsv => snd (export_logs_csv env w)
  | PostWebhook data => snd (handle_webhook data env w)
  | RunBackgroundTask =>
      match background_tasks w with
      | [] => w
      | data :: pending =>
          snd (process_webhook_data data env (with_background_tasks pending w))
      end
  end.

Definition startup : World :=
  {| log_entries := []; files := ∅; background_tasks := [] |}.

Definition run (trace : list (request * Env)) (w : World) : World :=
  fold_left (fun w re => serve (fst re) (snd re) w) trace w.

(** A call during which the storage engine and the disk work. *)
Definition healthy (utc local : Z) (json_fails : bool) : Env :=
  {| utcnow := utc; now := local; db_fails := false; json_fails := json_fails;
     disk_fails := false |}.

(** ** What the endpoints compute when no call fails *)

(** The response of [get_analytics] when the SELECT succeeds. *)
Definition analytics_of (utc : Z) (logs : list LogEntry.t) : AnalyticsResponse :=
  match logs with
  | [] => {| total_logs := 0; logs_by_level := ∅; logs_by_source := ∅;
             recent_activity := [] |}
  | _ :: _ =>
      let df := map frame_of logs in
      {| total_logs := length df;
         logs_by_level := value_counts (map Frame.level df);
         logs_by_source := value_counts (map Frame.source df);
         recent_activity := map activity_of (recent_rows utc df) |}
  end.

(** The row that [process_webhook_data] inserts. *)
Definition webhook_entry (data : list (string * Json.value)) : Z -> Z -> LogEntry.t :=
  LogEntry.init "INFO"
    ("Webhook processed: " +:+ py_str (Json.dict_get data "type" (Json.JStr "unknown")))
    "webhook" None (Some (Json.dumps (Json.JDict data))).

(** The [extra_data] column written by [create_log_entry]. *)
Definition extra_of (log_entry : LogEntryCreate.t) : option string :=
  if truthy_dict (LogEntryCreate.extra_data log_entry)
  then Some (Json.dumps (Json.JDict (default [] (LogEntryCreate.extra_data log_entry))))
  else None.

Definition created_entry (log_entry : LogEntryCreate.t) : Z -> Z -> LogEntry.t :=
  LogEntry.init (LogEntryCreate.level log_entry) (LogEntryCreate.message log_entry)
    (LogEntryCreate.source log_entry) (LogEntryCreate.user_id log_entry)
    (extra_of log_entry).

(** ** Sample requests *)

(** The first entry posted by [test_api.py]. *)
Definition sample_entry : LogEntryCreate.t :=
  LogEntryCreate.mk "INFO" "Application started successfully" "app-startup"
    (Some "system")
    (Some [("version", Json.JStr "1.0.0"); ("environment", Json.JStr "test")]).


(** The webhook payload of [test_api.py], its time stamp as whole seconds. *)
Definition sample_payload : list (string * Json.value) :=
  [("type", Json.JStr "user_action");
   ("action", Json.JStr "login");
   ("user_id", Json.JStr "test_user_123");
   ("timestamp", Json.JInt 1762272000)].

(** Three inserts, one second apart. *)
Definition three_posts : list (request * Env) :=
  [(PostLogs sample_entry, healthy 1000000 1000000 false);
   (PostLogs sample_entry, healthy 2000000 2000000 false);
   (PostLogs sample_entry, healthy 3000000 3000000 false)].

(** Two inserts between which the wall clock is set back by one second. *)
Definition clock_set_back : list (request * Env) :=
  [(PostLogs sample_entry, healthy 2000000 2000000 false);
   (PostLogs sample_entry, healthy 1000000 1000000 false)].

(** ** Notions used to state further properties *)

(** The rows that [get_logs] lets through: a filter that is absent or empty
    restricts nothing, any other one asks for the exact text. *)
Definition passes (level source : option string) (r : LogEntry.t) : bool :=
  (negb (truthy_str level) || String.eqb (LogEntry.level r) (default "" level)) &&
  (negb (truthy_str source) || String.eqb (LogEntry.source r) (default "" source)).

(** A call during which the storage engine refuses every statement. *)
Definition storage_down (utc local : Z) (json_fails disk_fails : bool) : Env :=
  {| utcnow := utc; now := local; db_fails := true; json_fails := json_fails;
     disk_fails := disk_fails |}.

(** The clock readings of the calls of a run, in order. *)
Definition clocks (trace : list (request * Env)) : list Z :=
  map (fun re => utcnow (snd re)) trace.

(** How often [k] occurs in a column. *)
Definition occurrences (k : string) (col : list string) : nat :=
  length (List.filter (String.eqb k) col).

(** * Properties *)

Local Open Scope list_scope.

(** ** The outcome of each endpoint *)

Lemma filter_true {A} (l : list A) : List.filter (fun _ => true) l = l.
Proof. induction l; cbn; congruence. Qed.

Lemma select_query rows : select query rows = rows.
Proof. unfold select, query; cbn. apply filter_true. Qed.

Lemma all_query env w :
  all query env w =
    if db_fails env then (Raised OperationalError, w)
    else (Returned (log_entries w), w).
Proof. unfold all. rewrite select_query. reflexivity. Qed.

Lemma with_log_entries_id w : with_log_entries (log_entries w) w = w.
Proof. destruct w; reflexivity. Qed.

Lemma get_analytics_eq env w :
  get_analytics env w =
    if db_fails env then (Raised (HTTPException 500 "Failed to generate analytics"), w)
    else (Returned (analytics_of (utcnow env) (log_entries w)), w).
Proof.
  unfold get_analytics, try_except, bind. rewrite all_query.
  destruct (db_fails env); [reflexivity|].
  unfold analytics_of. destruct (log_entries w); reflexivity.
Qed.

Lemma get_logs_eq skip lim level source env w :
  exists q,
    get_logs skip lim level source env w =
      if db_fails env then (Raised (HTTPException 500 "Failed to retrieve logs"), w)
      else (Returned (select q (log_entries w)), w).
Proof.
  unfold get_logs, try_except, bind, all, ret, raise. eexists.
  destruct (db_fails env); reflexivity.
Qed.

Lemma export_logs_csv_eq env w :
  export_logs_csv env w =
    if db_fails env || disk_fails env
    then (Raised (HTTPException 500 "Failed to export logs"), w)
    else
      let df := map export_row_of (log_entries w) in
      let csv_filename := "logs_export_" +:+ strftime (now env) +:+ ".csv" in
      (Returned {| export_message := "Export completed"; filename := csv_filename;
                   records_exported := length df |},
       with_files (<[csv_filename := df]> (files w)) w).
Proof.
  unfold export_logs_csv, try_except, bind. rewrite all_query.
  unfold to_csv, ret, raise.
  destruct (db_fails env); [reflexivity|].
  destruct (disk_fails env); reflexivity.
Qed.

Lemma handle_webhook_eq data env w :
  handle_webhook data env w =
    (Returned {| status := "accepted"; webhook_message := "Webhook data will be processed" |},
     with_background_tasks (background_tasks w ++ [data]) w).
Proof. reflexivity. Qed.

Lemma process_webhook_data_eq data env w :
  process_webhook_data data env w =
    if json_fails env || db_fails env then (Returned tt, w)
    else
      (Returned tt,
       with_log_entries
         (log_entries w ++ [webhook_entry data (next_rowid (log_entries w)) (utcnow env)]) w).
Proof.
  unfold process_webhook_data, try_except, bind, json_dumps, add_commit, ret.
  destruct (json_fails env); [reflexivity|].
  destruct (db_fails env); reflexivity.
Qed.

Lemma create_log_entry_eq log_entry env w :
  create_log_entry log_entry env w =
    if (truthy_dict (LogEntryCreate.extra_data log_entry) && json_fails env) || db_fails env
    then (Raised (HTTPException 500 "Failed to create log entry"), w)
    else
      let row := created_entry log_entry (next_rowid (log_entries w)) (utcnow env) in
      (Returned row, with_log_entries (log_entries w ++ [row]) w).
Proof.
  unfold create_log_entry, created_entry, extra_of, try_except, bind, json_dumps,
    add_commit, ret, raise.
  destruct (truthy_dict _), (json_fails env), (db_fails env); reflexivity.
Qed.

(** ** The table only grows, and by rows with fresh identifiers *)

Lemma next_rowid_above rows :
  Forall (fun r => (LogEntry.id r < next_rowid rows)%Z) rows.
Proof.
  unfold next_rowid. destruct rows as [|r0 rows]; [constructor|].
  cbn [map]. set (i := LogEntry.id r0). constructor; [fold i|].
  - assert (i <= foldr Z.max i (map LogEntry.id rows))%Z; [|lia].
    induction rows; cbn; lia.
  - generalize i. induction rows as [|r rows IH]; intros j; constructor.
    + cbn. lia.
    + eapply Forall_impl; [apply (IH j)|]. cbn. intros; lia.
Qed.

(** One request leaves the table as it is or appends one row, which carries
    the next rowid and the time of the call. *)
Lemma serve_log_entries r env w :
  log_entries (serve r env w) = log_entries w \/
  exists row,
    log_entries (serve r env w) = log_entries w ++ [row] /\
    LogEntry.id row = next_rowid (log_entries w) /\
    LogEntry.timestamp row = utcnow env.
Proof.
  destruct r; cbn [serve].
  - rewrite create_log_entry_eq. destruct (_ || _); cbn; eauto.
  - destruct (get_logs_eq skip lim level source env w) as [q ->].
    destruct (db_fails env); cbn; eauto.
  - rewrite get_analytics_eq. destruct (db_fails env); cbn; eauto.
  - rewrite export_logs_csv_eq. destruct (_ || _); cbn; eauto.
  - cbn; eauto.
  - destruct (background_tasks w) as [|data pending]; eauto.
    rewrite process_webhook_data_eq. destruct (_ || _); cbn; eauto.
Qed.

Lemma serve_ids_increasing r env w :
  StronglySorted Z.lt (map LogEntry.id (log_entries w)) ->
  StronglySorted Z.lt (map LogEntry.id (log_entries (serve r env w))).
Proof.
  intros Hs. destruct (serve_log_entries r env w) as [-> | (row & -> & Hid & _)]; [done|].
  rewrite map_app. apply StronglySorted_app_2; [| done | repeat constructor].
  intros i j Hi Hj. cbn in Hj. apply list_elem_of_singleton in Hj as ->.
  apply list_elem_of_In, in_map_iff in Hi as (r0 & <- & Hr0). rewrite Hid.
  pose proof (next_rowid_above (log_entries w)) as Hall.
  rewrite Forall_forall in Hall. apply Hall. by apply list_elem_of_In.
Qed.

Lemma run_ids_increasing trace w :
  StronglySorted Z.lt (map LogEntry.id (log_entries w)) ->
  StronglySorted Z.lt (map LogEntry.id (log_entries (run trace w))).
Proof.
  revert w. induction trace as [|[r env] trace IH]; intros w Hs; [done|].
  cbn. apply IH. by apply serve_ids_increasing.
Qed.


Lemma serve_prefix r env w : log_entries w `prefix_of` log_entries (serve r env w).
Proof.
  destruct (serve_log_entries r env w) as [-> | (row & -> & _)]; [done|].
  by apply prefix_app_r.
Qed.

Lemma run_prefix trace w : log_entries w `prefix_of` log_entries (run trace w).
Proof.
  revert w. induction trace as [|[r env] trace IH]; intros w; [done|].
  cbn. etrans; [apply serve_prefix | apply IH].
Qed.


(** C9. Every request (create, list, analytics, export, webhook, background
    task), in every environment, leaves the rows already in the table where
    they are and as they are: the old table is a prefix of the new one, after
    one request and after any run of requests. *)
Theorem stored_events_never_change (r : request) (trace : list (request * Env))
    (env : Env) (w : World) :
  log_entries w `prefix_of` log_entries (serve r env w) /\
  log_entries w `prefix_of` log_entries (run trace w) /\
  (forall i, i < length (log_entries w) ->
     log_entries (run trace w) !! i = log_entries w !! i).
Proof.
  split; [apply serve_prefix|]. split; [apply run_prefix|].
  intros i Hi. destruct (run_prefix trace w) as [new ->].
  by apply lookup_app_l.
Qed.

(** C10. An empty string given as [level] (or as [source]) filters nothing:
    the call is the call without that filter. *)
Theorem get_logs_empty_string_is_no_filter (skip lim : Z) (level source : option string) :
  get_logs skip lim (Some "") source = get_logs skip lim None source /\
  get_logs skip lim level (Some "") = get_logs skip lim level None.
Proof. split; reflexivity. Qed.

(** ** Pagination *)

Lemma get_logs_unfiltered skip lim env w :
  get_logs skip lim None None env w =
    if db_fails env then (Raised (HTTPException 500 "Failed to retrieve logs"), w)
    else (Returned (sql_limit (Some lim) (sql_offset (Some skip) (log_entries w))), w).
Proof.
  unfold get_logs, try_except, bind, all, ret, raise. cbn [truthy_str].
  destruct (db_fails env); [reflexivity|].
  unfold select, limit, offset, query; cbn. by rewrite filter_true.
Qed.

(** C2, as the code has it. After any run of the service, with [T] rows in
    the table and [0 <= N <= T]: the unfiltered query with skip 0 and limit
    [N] returns the first [N] rows; the query with skip [N] and limit [N]
    returns the rows that follow, [min N (T - N)] of them (all [N] when
    [2 N <= T]); the two pages together are the first [2 N] rows of the
    table, in strictly ascending id, so they neither overlap nor leave a gap. *)
Theorem pagination_is_contiguous (trace : list (request * Env))
    (utc local : Z) (jf : bool) (N : Z) :
  let w := run trace startup in
  let rows := log_entries w in
  let env := healthy utc local jf in
  (0 <= N <= Z.of_nat (length rows))%Z ->
  exists page1 page2,
    get_logs 0 N None None env w = (Returned page1, w) /\
    get_logs N N None None env w = (Returned page2, w) /\
    page1 = take (Z.to_nat N) rows /\
    length page1 = Z.to_nat N /\
    page2 = take (Z.to_nat N) (drop (Z.to_nat N) rows) /\
    length page2 = Nat.min (Z.to_nat N) (length rows - Z.to_nat N) /\
    page1 ++ page2 = take (Z.to_nat N + Z.to_nat N) rows /\
    StronglySorted Z.lt (map LogEntry.id (page1 ++ page2)).
Proof.
  intros w rows env HN. exists (take (Z.to_nat N) rows), (take (Z.to_nat N) (drop (Z.to_nat N) rows)).
  rewrite !get_logs_unfiltered. cbn [healthy db_fails sql_limit sql_offset].
  assert ((N <? 0)%Z = false) as -> by lia.
  change (Z.to_nat 0) with 0. rewrite drop_0. fold rows.
  repeat split.
  - rewrite length_take. lia.
  - rewrite length_take, length_drop. done.
  - apply take_take_drop.
  - rewrite take_take_drop.
    assert (StronglySorted Z.lt (map LogEntry.id rows)) as Hs
      by (apply run_ids_increasing; constructor).
    rewrite <- (take_drop (Z.to_nat N + Z.to_nat N) rows), map_app in Hs.
    by apply StronglySorted_app_1_l in Hs.
Qed.

(** ** Export *)

(** C5. When the storage engine and the disk work, the export answers with
    a record count equal to the number of rows in the table at the call, and
    the file it names holds one row per stored event, in order, whose id,
    timestamp, level, message, source and user_id are those of the event; an
    exported row has no extra_data column. The table is left as it was. *)
Theorem export_matches_store (utc local : Z) (jf : bool) (w : World) :
  exists resp w',
    export_logs_csv (healthy utc local jf) w = (Returned resp, w') /\
    records_exported resp = length (log_entries w) /\
    log_entries w' = log_entries w /\
    exists frame,
      files w' !! filename resp = Some frame /\
      length frame = length (log_entries w) /\
      Forall2 (fun row log =>
                 ExportRow.id row = LogEntry.id log /\
                 ExportRow.timestamp row = LogEntry.timestamp log /\
                 ExportRow.level row = LogEntry.level log /\
                 ExportRow.message row = LogEntry.message log /\
                 ExportRow.source row = LogEntry.source log /\
                 ExportRow.user_id row = LogEntry.user_id log)
              frame (log_entries w).
Proof.
  rewrite export_logs_csv_eq. cbn [healthy db_fails disk_fails orb now].
  eexists _, _. split; [reflexivity|]. cbn [records_exported filename].
  split; [apply length_map|]. split; [reflexivity|].
  eexists. split; [apply lookup_insert_eq|]. split; [apply length_map|].
  induction (log_entries w) as [|log logs IH]; constructor; [|exact IH].
  repeat split.
Qed.

(** ** The webhook task *)

(** C7. [handle_webhook] answers "accepted" and queues the payload, whatever
    the environment; nothing in its answer depends on the task. The task,
    run later in any environment and on any state, always returns normally:
    when the encoder or the storage engine fails the exception stops at the
    task, which then leaves the table as it is. *)
Theorem webhook_task_failures_absorbed (data : list (string * Json.value))
    (env : Env) (w : World) :
  handle_webhook data env w =
    (Returned {| status := "accepted"; webhook_message := "Webhook data will be processed" |},
     with_background_tasks (background_tasks w ++ [data]) w) /\
  forall (env' : Env) (w' : World),
    exists w'',
      process_webhook_data data env' w' = (Returned tt, w'') /\
      log_entries w'' =
        if json_fails env' || db_fails env' then log_entries w'
        else log_entries w' ++
               [webhook_entry data (next_rowid (log_entries w')) (utcnow env')].
Proof.
  split; [reflexivity|]. intros env' w'. rewrite process_webhook_data_eq.
  destruct (json_fails env' || db_fails env'); eexists; split; reflexivity.
Qed.

(** ** Analytics *)

Lemma sum_values_bump (m : gmap string nat) (k : string) :
  sum_values (<[k := S (default 0 (m !! k))]> m) = S (sum_values m).
Proof.
  unfold sum_values. destruct (m !! k) as [n|] eqn:Hk; cbn [default].
  - rewrite <- insert_delete_eq.
    rewrite map_fold_insert_L; [| intros; cbn; lia | apply lookup_delete_eq].
    rewrite (map_fold_delete_L _ _ k n m); [unfold id; lia | intros; cbn; lia | done].
  - rewrite map_fold_insert_L; [unfold id; lia | intros; cbn; lia | done].
Qed.

Lemma sum_values_value_counts (col : list string) :
  sum_values (value_counts col) = length col.
Proof.
  induction col as [|k col IH]; [apply map_fold_empty|].
  cbn [value_counts foldr length]. fold (value_counts col).
  by rewrite sum_values_bump, IH.
Qed.

(** C3. When the storage engine works, the analytics answer has [total_logs]
    equal to the number of rows in the table, and the counts of
    [logs_by_level] and those of [logs_by_source] each add up to
    [total_logs] (on every table, the empty one included). *)
Theorem analytics_totals (utc local : Z) (jf : bool) (w : World) :
  exists resp,
    get_analytics (healthy utc local jf) w = (Returned resp, w) /\
    total_logs resp = length (log_entries w) /\
    sum_values (logs_by_level resp) = total_logs resp /\
    sum_values (logs_by_source resp) = total_logs resp.
Proof.
  rewrite get_analytics_eq. cbn [healthy db_fails utcnow].
  eexists. split; [reflexivity|]. unfold analytics_of.
  destruct (log_entries w) as [|log logs]; [by repeat split|].
  cbn [total_logs logs_by_level logs_by_source].
  rewrite !sum_values_value_counts, !length_map. done.
Qed.

Lemma StronglySorted_sublist {A} (R : relation A) (l1 l2 : list A) :
  l1 `sublist_of` l2 -> StronglySorted R l2 -> StronglySorted R l1.
Proof.
  induction 1 as [|x l1 l2 Hsub IH|x l1 l2 _ IH]; intros Hs; [done| |].
  - apply StronglySorted_inv in Hs as [Hs Hx]. constructor; [by apply IH|].
    rewrite Forall_forall in Hx |- *. intros y Hy. apply Hx.
    by apply (elem_of_sublist l1).
  - apply StronglySorted_inv in Hs as [Hs _]. by apply IH.
Qed.

Lemma since_sublist t df : since t df `sublist_of` df.
Proof.
  unfold since. induction df as [|r df IH]; [done|]. cbn.
  destruct (t <=? Frame.timestamp r)%Z; by constructor.
Qed.

Lemma since_Forall t df : Forall (fun r => (t <= Frame.timestamp r)%Z) (since t df).
Proof.
  unfold since. induction df as [|r df IH]; [constructor|]. cbn.
  destruct (t <=? Frame.timestamp r)%Z eqn:E; [constructor; [lia | done] | done].
Qed.

Lemma map_frame_timestamp logs :
  map Frame.timestamp (map frame_of logs) = map LogEntry.timestamp logs.
Proof. induction logs; cbn; congruence. Qed.

Lemma map_sublist {A B} (f : A -> B) (l1 l2 : list A) :
  l1 `sublist_of` l2 -> map f l1 `sublist_of` map f l2.
Proof. induction 1; cbn; by constructor. Qed.

(** C1, as the code has it. When the storage engine works, the rows behind
    [recent_activity] are the last ten (or fewer) of the rows whose
    timestamp is at least [utcnow - 24h], kept in the order of the table,
    that is in ascending id: none is older than the window, there are at
    most ten, and their timestamps ascend whenever the timestamps stored in
    the table ascend in insertion order. *)
Theorem recent_activity_window (utc local : Z) (jf : bool) (w : World) :
  let df := map frame_of (log_entries w) in
  let rows := recent_rows utc df in
  exists resp,
    get_analytics (healthy utc local jf) w = (Returned resp, w) /\
    recent_activity resp = map activity_of rows /\
    length (recent_activity resp) <= 10 /\
    Forall (fun r => (utc - timedelta_hours 24 <= Frame.timestamp r)%Z) rows /\
    rows `suffix_of` since (utc - timedelta_hours 24) df /\
    rows `sublist_of` df /\
    (StronglySorted Z.le (map LogEntry.timestamp (log_entries w)) ->
     StronglySorted Z.le (map Frame.timestamp rows)).
Proof.
  intros df rows. rewrite get_analytics_eq. cbn [healthy db_fails utcnow].
  eexists. split; [reflexivity|].
  assert (rows `suffix_of` since (utc - timedelta_hours 24) df) as Hsuf.
  { unfold rows, recent_rows, tail. apply suffix_drop. }
  assert (rows `sublist_of` df) as Hsub.
  { destruct Hsuf as [k Hk]. etrans; [| apply since_sublist].
    rewrite Hk. by apply sublist_inserts_l. }
  split; [| split; [| split; [| split; [done | split; [done|]]]]].
  - unfold analytics_of. subst rows df. by destruct (log_entries w).
  - assert (length rows <= 10) as Hlen.
    { unfold rows, recent_rows, tail. rewrite length_drop. lia. }
    unfold analytics_of. subst rows df. destruct (log_entries w); cbn [recent_activity].
    + cbn. lia.
    + by rewrite length_map.
  - destruct Hsuf as [k Hk]. pose proof (since_Forall (utc - timedelta_hours 24) df) as HF.
    rewrite Hk in HF. by apply Forall_app in HF as [_ HF].
  - intros Hs. eapply StronglySorted_sublist; [apply map_sublist, Hsub|].
    unfold df. by rewrite map_frame_timestamp.
Qed.

(** ** The JSON text written by [dumps] is read back by [loads] *)

Import Json.

Lemma append_cons (c : ascii) (a b : string) : String c a +:+ b = String c (a +:+ b).
Proof. reflexivity. Qed.

Lemma append_assoc (a b c : string) : (a +:+ b) +:+ c = a +:+ (b +:+ c).
Proof. induction a as [|x a IH]; [reflexivity|]. by rewrite !append_cons, IH. Qed.

Lemma append_empty_r (a : string) : a +:+ "" = a.
Proof. induction a as [|x a IH]; [reflexivity|]. by rewrite append_cons, IH. Qed.

Lemma length_append (a b : string) :
  String.length (a +:+ b) = String.length a + String.length b.
Proof.
  induction a as [|x a IH]; [reflexivity|].
  rewrite append_cons. cbn [String.length]. by rewrite IH.
Qed.

Lemma scanstring_escape_char (c : ascii) (s : string) :
  scanstring (escape_char c +:+ s) =
    match scanstring s with
    | Some (r, rest) => Some (String c r, rest)
    | None => None
    end.
Proof.
  destruct c as [[] [] [] [] [] [] [] []]; reflexivity.
Qed.

Lemma scanstring_escape (s rest : string) :
  scanstring (escape s +:+ String quote rest) = Some (s, rest).
Proof.
  induction s as [|c s IH]; [reflexivity|].
  cbn [escape]. by rewrite append_assoc, scanstring_escape_char, IH.
Qed.

Lemma scanstring_encode (s rest : string) :
  scanstring (escape s +:+ String quote "" +:+ rest) = Some (s, rest).
Proof. apply scanstring_escape. Qed.

(** *** Integers *)

Lemma delimited_no_digit s : delimited s -> no_digit s.
Proof. destruct s as [|c s]; [done|]. by intros [-> | [-> | ->]]. Qed.

Lemma delimited_no_float s : delimited s -> starts_frac s || starts_exp s = false.
Proof. destruct s as [|c s]; [done|]. by intros [-> | [-> | ->]]. Qed.

Lemma scan_digits_stop s : no_digit s -> scan_digits s = (Decimal.Nil, s).
Proof. destruct s as [|c s]; [done|]. cbn. by intros ->. Qed.

Lemma scan_digits_string_of_uint (u : Decimal.uint) (rest : string) :
  no_digit rest ->
  scan_digits (NilEmpty.string_of_uint u +:+ rest) = (u, rest).
Proof.
  intros Hrest. induction u as [|u IH|u IH|u IH|u IH|u IH|u IH|u IH|u IH|u IH|u IH];
    cbn [NilEmpty.string_of_uint];
    [by apply scan_digits_stop | rewrite append_cons; cbn [scan_digits digit_of]; by rewrite IH ..].
Qed.

Lemma scan_integer_canonical (u : Decimal.uint) (rest : string) :
  canonical u -> no_digit rest ->
  scan_integer (NilEmpty.string_of_uint u +:+ rest) = Some (u, rest).
Proof.
  intros Hu Hrest. pose proof (scan_digits_string_of_uint u rest Hrest) as Hd.
  destruct u; cbn in Hu; [done | by subst | ..];
    cbn [NilEmpty.string_of_uint] in *; rewrite append_cons in *;
    unfold scan_integer; cbn [is_digit]; by rewrite Hd.
Qed.

Lemma to_uint_canonical (p : positive) : canonical (Pos.to_uint p).
Proof.
  pose proof (DecimalPos.Unsigned.to_of (Pos.to_uint p)) as H.
  rewrite DecimalPos.Unsigned.of_to in H. cbn [N.to_uint] in H.
  destruct (Pos.to_uint p) as [|u| | | | | | | | |] eqn:E; cbn; try done.
  unfold Decimal.unorm in H. cbn [Decimal.nzhead] in H.
  destruct (Decimal.nzhead u) eqn:En; try (by inversion H).
  exfalso. by apply (DecimalFacts.nzhead_nonzero u u0).
Qed.

Lemma scan_number_int_repr (n : Z) (rest : string) :
  delimited rest -> scan_number (int_repr n +:+ rest) = Some (n, rest).
Proof.
  intros Hrest. pose proof (delimited_no_digit _ Hrest) as Hnd.
  pose proof (delimited_no_float _ Hrest) as Hnf.
  pose proof (DecimalZ.of_to n) as Hn. unfold int_repr.
  destruct n as [|p|p]; cbn [Z.to_int] in *.
  - unfold scan_number. cbn [NilEmpty.string_of_uint]. rewrite append_cons.
    cbn [scan_integer]. change ("" +:+ rest) with rest. by rewrite Hnf, Hn.
  - pose proof (scan_integer_canonical _ rest (to_uint_canonical p) Hnd) as Hs.
    pose proof (to_uint_canonical p) as Hc.
    unfold scan_number.
    destruct (Pos.to_uint p) eqn:E; cbn in Hc; try done;
      cbn [NilEmpty.string_of_uint] in *; rewrite append_cons in *;
      rewrite Hs, Hnf, Hn; done.
  - pose proof (scan_integer_canonical _ rest (to_uint_canonical p) Hnd) as Hs.
    rewrite append_cons. unfold scan_number. by rewrite Hs, Hnf, Hn.
Qed.

Lemma int_repr_head (n : Z) :
  exists c s, int_repr n = String c s /\ (is_digit c = true \/ c = "-"%char).
Proof.
  unfold int_repr. destruct n as [|p|p]; cbn [Z.to_int].
  - eexists _, _. split; [reflexivity | by left].
  - pose proof (to_uint_canonical p) as Hc.
    destruct (Pos.to_uint p); cbn in Hc; try done;
      eexists _, _; (split; [reflexivity | by left]).
  - eexists _, _. split; [reflexivity | by right].
Qed.

Lemma scan_once_number (fuel : nat) (c : ascii) (s : string) :
  is_digit c = true \/ c = "-"%char ->
  scan_once (S fuel) (String c s) =
    match scan_number (String c s) with
    | Some (n, rest) => Some (JInt n, rest)
    | None => None
    end.
Proof.
  intros Hc.
  assert (Ascii.eqb c quote = false /\ Ascii.eqb c "{" = false /\ Ascii.eqb c "[" = false /\
          Ascii.eqb c "n" = false /\ Ascii.eqb c "t" = false /\ Ascii.eqb c "f" = false)
    as (H1 & H2 & H3 & H4 & H5 & H6).
  { destruct Hc as [Hc | ->]; [|done].
    destruct c as [[] [] [] [] [] [] [] []]; try discriminate Hc; done. }
  cbn [scan_once]. by rewrite H1, H2, H3, H4, H5, H6.
Qed.

Lemma scan_once_int (fuel : nat) (n : Z) (rest : string) :
  delimited rest -> scan_once (S fuel) (int_repr n +:+ rest) = Some (JInt n, rest).
Proof.
  intros Hrest. pose proof (scan_number_int_repr n rest Hrest) as Hn.
  destruct (int_repr_head n) as (c & s & E & Hc). rewrite E in *.
  rewrite append_cons in *. by rewrite scan_once_number, Hn.
Qed.


(** *** Values *)

Lemma dumps_list (items : list value) :
  dumps (JList items) = String "[" (elements items +:+ "]").
Proof. reflexivity. Qed.

Lemma dumps_dict (items : list (string * value)) :
  dumps (JDict items) = String "{" (members items +:+ "}").
Proof. reflexivity. Qed.

Lemma dumps_opens (v : value) (rest : string) : opens_value (dumps v +:+ rest).
Proof.
  destruct v as [|[]|n|s|items|items].
  1-3: done.
  - destruct (int_repr_head n) as (c & s & E & Hc). cbn [dumps]. rewrite E, append_cons.
    destruct Hc as [Hc | ->]; [|done].
    destruct c as [[] [] [] [] [] [] [] []]; try discriminate Hc; done.
  - done.
  - by rewrite dumps_list.
  - by rewrite dumps_dict.
Qed.

Lemma dumps_length (v : value) : 1 <= String.length (dumps v).
Proof.
  pose proof (dumps_opens v "") as H. rewrite append_empty_r in H.
  destruct (dumps v); [done | cbn; lia].
Qed.

Lemma skip_ws_opens (s : string) : opens_value s -> skip_ws s = s.
Proof. destruct s as [|c s]; [done|]. intros (H & _). cbn. by rewrite H. Qed.

Lemma expect_opens (s : string) :
  opens_value s -> expect "]" s = None /\ expect "}" s = None.
Proof. destruct s as [|c s]; [done|]. intros (_ & H1 & H2). cbn. by rewrite H1, H2. Qed.

Lemma well_formed_list (items : list value) :
  well_formed (JList items) <-> Forall well_formed items.
Proof.
  cbn [well_formed]. induction items as [|x items IH]; cbn [map].
  - split; constructor.
  - split; intros H; inversion H; subst; constructor; try done; by apply IH.
Qed.

Lemma well_formed_dict (items : list (string * value)) :
  well_formed (JDict items) <->
  NoDup (map fst items) /\ Forall (fun kx => well_formed (snd kx)) items.
Proof.
  cbn [well_formed].
  assert (Forall id (map (fun kx => well_formed (snd kx)) items) <->
          Forall (fun kx => well_formed (snd kx)) items) as ->; [|done].
  induction items as [|x items IH]; cbn [map].
  - split; constructor.
  - split; intros H; inversion H; subst; constructor; try done; by apply IH.
Qed.

Lemma dict_set_fresh (k : string) (x : value) (d : list (string * value)) :
  k ∉ map fst d -> dict_set k x d = d ++ [(k, x)].
Proof.
  induction d as [|[k' x'] d IH]; [done|]. cbn. intros Hk.
  apply not_elem_of_cons in Hk as [Hne Hk].
  destruct (String.eqb_spec k' k) as [->|_]; [done|]. by rewrite IH.
Qed.

Lemma dict_of_pairs_distinct (pairs : list (string * value)) :
  NoDup (map fst pairs) -> dict_of_pairs pairs = pairs.
Proof.
  unfold dict_of_pairs.
  assert (forall acc, NoDup (map fst (acc ++ pairs)) ->
            fold_left (fun d kx => dict_set (fst kx) (snd kx) d) pairs acc = acc ++ pairs)
    as H; [|intros Hnd; by apply (H [])].
  induction pairs as [|[k x] pairs IH]; intros acc Hnd; cbn [fold_left].
  - by rewrite app_nil_r.
  - rewrite dict_set_fresh.
    + rewrite IH; [by rewrite <- app_assoc|]. by rewrite <- app_assoc.
    + rewrite map_app in Hnd. apply NoDup_app in Hnd as (_ & Hnd & _).
      intros Hin. apply (Hnd k Hin). cbn. left.
Qed.

Lemma elements_opens (x : value) (xs : list value) (rest : string) :
  opens_value (elements (x :: xs) +:+ rest).
Proof.
  destruct xs; cbn [elements]; rewrite ?append_assoc; apply dumps_opens.
Qed.

Lemma scan_once_open_list (fuel : nat) (s : string) :
  scan_once (S fuel) (String "[" s) =
    match expect "]" (skip_ws s) with
    | Some rest => Some (JList [], rest)
    | None =>
        match scan_elements fuel (skip_ws s) with
        | Some (items, rest) => Some (JList items, rest)
        | None => None
        end
    end.
Proof. reflexivity. Qed.

Lemma scan_once_open_dict (fuel : nat) (s : string) :
  scan_once (S fuel) (String "{" s) =
    match expect "}" (skip_ws s) with
    | Some rest => Some (JDict [], rest)
    | None =>
        match scan_members fuel (skip_ws s) with
        | Some (pairs, rest) => Some (JDict (dict_of_pairs pairs), rest)
        | None => None
        end
    end.
Proof. reflexivity. Qed.

Lemma scan_once_string (fuel : nat) (s : string) :
  scan_once (S fuel) (String quote s) =
    match scanstring s with
    | Some (r, rest) => Some (JStr r, rest)
    | None => None
    end.
Proof. reflexivity. Qed.

Lemma scan_elements_step (fuel : nat) (s : string) :
  scan_elements (S fuel) s =
    match scan_once fuel s with
    | Some (x, rest) =>
        match expect "]" (skip_ws rest) with
        | Some rest' => Some ([x], rest')
        | None =>
            match expect "," (skip_ws rest) with
            | Some rest' =>
                match scan_elements fuel (skip_ws rest') with
                | Some (xs, rest'') => Some (x :: xs, rest'')
                | None => None
                end
            | None => None
            end
        end
    | None => None
    end.
Proof. reflexivity. Qed.

Lemma scan_members_step (fuel : nat) (k : string) (s : string) :
  scan_members (S fuel) (String quote (escape k +:+ String quote (String ":" (String " " s)))) =
    match scan_once fuel (skip_ws s) with
    | Some (x, rest) =>
        match expect "}" (skip_ws rest) with
        | Some rest' => Some ([(k, x)], rest')
        | None =>
            match expect "," (skip_ws rest) with
            | Some rest' =>
                match scan_members fuel (skip_ws rest') with
                | Some (kxs, rest'') => Some ((k, x) :: kxs, rest'')
                | None => None
                end
            | None => None
            end
        end
    | None => None
    end.
Proof.
  cbn [scan_members expect]. rewrite Ascii.eqb_refl, scanstring_escape. reflexivity.
Qed.

Lemma members_cons (k : string) (x : value) (kxs : list (string * value)) (rest : string) :
  members ((k, x) :: kxs) +:+ rest =
    String quote (escape k +:+ String quote (String ":" (String " "
      (dumps x +:+ match kxs with
                   | [] => rest
                   | _ :: _ => String "," (String " " (members kxs +:+ rest))
                   end)))).
Proof.
  destruct kxs as [|[k' y] kxs]; cbn [members]; unfold encode_basestring_ascii;
    repeat (rewrite append_cons || rewrite append_assoc); reflexivity.
Qed.

Lemma members_length (k : string) (x : value) (kxs : list (string * value)) :
  String.length (dumps x) + String.length (members kxs) < String.length (members ((k, x) :: kxs)).
Proof.
  destruct kxs as [|[k' y] kxs]; cbn [members]; unfold encode_basestring_ascii;
    rewrite ?length_append; cbn [String.length]; rewrite ?length_append;
    cbn [String.length]; lia.
Qed.

Lemma elements_cons (x : value) (xs : list value) (rest : string) :
  elements (x :: xs) +:+ rest =
    dumps x +:+ match xs with
                | [] => rest
                | _ :: _ => String "," (String " " (elements xs +:+ rest))
                end.
Proof.
  destruct xs; cbn [elements]; repeat (rewrite append_cons || rewrite append_assoc);
    reflexivity.
Qed.

Lemma elements_length (x : value) (xs : list value) :
  String.length (dumps x) + String.length (elements xs) <= String.length (elements (x :: xs)).
Proof.
  destruct xs; cbn [elements]; rewrite ?length_append; cbn [String.length];
    rewrite ?length_append; lia.
Qed.

Lemma members_opens (k : string) (x : value) (kxs : list (string * value)) (rest : string) :
  opens_value (members ((k, x) :: kxs) +:+ rest).
Proof. by rewrite members_cons. Qed.

(** After a value that a comma follows: the comma is taken, the blank after
    it skipped. *)
Ltac after_comma :=
  change (skip_ws (String "," ?t)) with (String "," t);
  change (expect "]" (String "," ?t)) with (@None string);
  change (expect "}" (String "," ?t)) with (@None string);
  change (expect "," (String "," ?t)) with (Some t);
  cbv beta iota;
  change (skip_ws (String " " ?t)) with (skip_ws t).

(** With fuel for its length, the scanner reads a written value back, and so
    for the inside of a list and of a dict. *)
Lemma scan_dumps (fuel : nat) :
  (forall v rest,
     String.length (dumps v) <= fuel -> well_formed v -> delimited rest ->
     scan_once fuel (dumps v +:+ rest) = Some (v, rest)) /\
  (forall x xs rest,
     String.length (elements (x :: xs)) < fuel -> Forall well_formed (x :: xs) ->
     scan_elements fuel (elements (x :: xs) +:+ String "]" rest) = Some (x :: xs, rest)) /\
  (forall k x kxs rest,
     String.length (members ((k, x) :: kxs)) < fuel ->
     Forall (fun kx => well_formed (snd kx)) ((k, x) :: kxs) ->
     scan_members fuel (members ((k, x) :: kxs) +:+ String "}" rest)
       = Some ((k, x) :: kxs, rest)).
Proof.
  induction fuel as [|fuel (IHv & IHe & IHm)].
  { split; [|split; intros; lia]. intros v rest Hlen. pose proof (dumps_length v). lia. }
  split; [|split].
  - intros v rest Hlen Hwf Hrest. destruct v as [|[]|n|s|items|items].
    1-3: reflexivity.
    + by apply scan_once_int.
    + cbn [dumps]. unfold encode_basestring_ascii.
      rewrite append_cons, scan_once_string, append_assoc.
      change (String quote "" +:+ rest) with (String quote rest).
      by rewrite scanstring_escape.
    + rewrite dumps_list in *. rewrite append_cons, scan_once_open_list, append_assoc.
      change ("]" +:+ rest) with (String "]" rest).
      destruct items as [|x xs]; [reflexivity|].
      rewrite skip_ws_opens by apply elements_opens.
      destruct (expect_opens _ (elements_opens x xs (String "]" rest))) as [-> _].
      rewrite IHe; [done| |by apply well_formed_list].
      cbn [String.length] in Hlen. rewrite length_append in Hlen.
      cbn [String.length] in Hlen. lia.
    + rewrite dumps_dict in *. rewrite append_cons, scan_once_open_dict, append_assoc.
      change ("}" +:+ rest) with (String "}" rest).
      apply well_formed_dict in Hwf as [Hnd Hwf].
      destruct items as [|[k x] kxs]; [reflexivity|].
      rewrite skip_ws_opens by apply members_opens.
      destruct (expect_opens _ (members_opens k x kxs (String "}" rest))) as [_ ->].
      rewrite IHm; [by rewrite dict_of_pairs_distinct| |done].
      cbn [String.length] in Hlen. rewrite length_append in Hlen.
      cbn [String.length] in Hlen. lia.
  - intros x xs rest Hlen Hwf. apply Forall_cons in Hwf as [Hx Hxs].
    pose proof (elements_length x xs) as Hl. pose proof (dumps_length x) as Hl1.
    rewrite scan_elements_step, elements_cons. destruct xs as [|y ys].
    + rewrite IHv; [reflexivity | lia | done | by right; left].
    + rewrite IHv; [| lia | done | by left].
      after_comma.
      rewrite skip_ws_opens by apply elements_opens.
      rewrite IHe; [done | lia | done].
  - intros k x kxs rest Hlen Hwf. apply Forall_cons in Hwf as [Hx Hkxs].
    pose proof (members_length k x kxs) as Hl. pose proof (dumps_length x) as Hl1.
    cbn [snd] in Hx.
    rewrite members_cons, scan_members_step.
    rewrite skip_ws_opens by apply dumps_opens.
    destruct kxs as [|[k' y] kxs].
    + rewrite IHv; [reflexivity | lia | done | by right; right].
    + rewrite IHv; [| lia | done | by left].
      after_comma.
      rewrite skip_ws_opens by apply members_opens.
      rewrite IHm; [done | lia | done].
Qed.

(** [loads] undoes [dumps] on every value whose dicts have distinct keys. *)
Lemma loads_dumps (v : value) : well_formed v -> loads (dumps v) = Some v.
Proof.
  intros Hwf. unfold loads.
  pose proof (dumps_opens v "") as Ho. rewrite append_empty_r in Ho.
  rewrite skip_ws_opens by done.
  destruct (scan_dumps (S (String.length (dumps v)))) as (Hs & _ & _).
  specialize (Hs v "" ltac:(lia) Hwf I). rewrite append_empty_r in Hs.
  by rewrite Hs.
Qed.


(** ** What is stored in [extra_data] *)





(** * Further properties of the endpoints *)

(** ** Listing *)

Lemma get_logs_spec skip lim level source env w :
  get_logs skip lim level source env w =
    if db_fails env then (Raised (HTTPException 500 "Failed to retrieve logs"), w)
    else (Returned (sql_limit (Some lim) (sql_offset (Some skip)
                      (List.filter (passes level source) (log_entries w)))), w).
Proof.
  unfold get_logs, try_except, bind, all, ret, raise.
  destruct (db_fails env); [reflexivity|]. do 2 f_equal.
  unfold select. cbn [q_limit q_offset limit offset]. do 2 f_equal.
  apply filter_ext. intros r. unfold passes.
  destruct (truthy_str level), (truthy_str source); cbn;
    rewrite ?andb_true_r; reflexivity.
Qed.










(** ** Failures of the storage engine *)

(** X3. When the storage engine refuses the statement, each of the four
    endpoints that use the table raises HTTP 500 with its own fixed detail
    and leaves the whole state as it was: no row is added, no file written,
    no task queued. *)
Theorem storage_failure_gives_500 (log_entry : LogEntryCreate.t) (skip lim : Z)
    (level source : option string) (utc local : Z) (jf df : bool) (w : World) :
  let env := storage_down utc local jf df in
  create_log_entry log_entry env w
    = (Raised (HTTPException 500 "Failed to create log entry"), w) /\
  get_logs skip lim level source env w
    = (Raised (HTTPException 500 "Failed to retrieve logs"), w) /\
  get_analytics env w
    = (Raised (HTTPException 500 "Failed to generate analytics"), w) /\
  export_logs_csv env w
    = (Raised (HTTPException 500 "Failed to export logs"), w).
Proof.
  cbv zeta. rewrite create_log_entry_eq, get_logs_spec, get_analytics_eq, export_logs_csv_eq.
  cbn [storage_down db_fails orb]. rewrite orb_true_r. done.
Qed.

(** ** Creating an entry *)


(** X5. A row created by [create_log_entry] carries the level, message,
    source and user_id of the request as they were sent (no trimming, no
    default, an absent user_id stays absent and an empty one stays empty),
    the time of the call as its timestamp, and an id above every id already
    in the table. *)
Theorem created_row_is_verbatim (log_entry : LogEntryCreate.t)
    (utc local : Z) (w : World) :
  exists row,
    create_log_entry log_entry (healthy utc local false) w
      = (Returned row, with_log_entries (log_entries w ++ [row]) w) /\
    LogEntry.level row = LogEntryCreate.level log_entry /\
    LogEntry.message row = LogEntryCreate.message log_entry /\
    LogEntry.source row = LogEntryCreate.source log_entry /\
    LogEntry.user_id row = LogEntryCreate.user_id log_entry /\
    LogEntry.timestamp row = utc /\
    Forall (fun r => (LogEntry.id r < LogEntry.id row)%Z) (log_entries w).
Proof.
  rewrite create_log_entry_eq. cbn [healthy db_fails json_fails utcnow].
  rewrite andb_false_r. cbn [orb]. eexists. split; [reflexivity|].
  repeat split. apply next_rowid_above.
Qed.





(** ** The histograms and the window of [get_analytics] *)

Lemma value_counts_lookup (col : list string) (k : string) :
  value_counts col !! k =
    match occurrences k col with
    | 0 => None
    | S n => Some (S n)
    end.
Proof.
  unfold occurrences. induction col as [|a col IH]; [apply lookup_empty|].
  cbn [value_counts foldr List.filter]. fold (value_counts col).
  destruct (String.eqb_spec k a) as [<-|Hne].
  - rewrite lookup_insert_eq, IH. cbn [length].
    by destruct (length (List.filter (String.eqb k) col)).
  - by rewrite lookup_insert_ne.
Qed.

Lemma analytics_of_level utc logs (k : string) :
  logs_by_level (analytics_of utc logs) !! k =
    match occurrences k (map LogEntry.level logs) with 0 => None | S n => Some (S n) end.
Proof.
  destruct logs as [|log logs]; [apply lookup_empty|].
  unfold analytics_of. cbn [logs_by_level]. rewrite value_counts_lookup.
  by rewrite map_map.
Qed.

Lemma analytics_of_source utc logs (k : string) :
  logs_by_source (analytics_of utc logs) !! k =
    match occurrences k (map LogEntry.source logs) with 0 => None | S n => Some (S n) end.
Proof.
  destruct logs as [|log logs]; [apply lookup_empty|].
  unfold analytics_of. cbn [logs_by_source]. rewrite value_counts_lookup.
  by rewrite map_map.
Qed.

(** X7. When the storage engine works, [logs_by_level] maps a level to the
    number of rows of the whole table that carry it, and has no entry for a
    level no row carries; likewise [logs_by_source] for sources. Neither is
    restricted to the last 24 hours. *)
Theorem histograms_count_every_row (utc local : Z) (jf : bool) (w : World) (k : string) :
  exists resp,
    get_analytics (healthy utc local jf) w = (Returned resp, w) /\
    logs_by_level resp !! k =
      match occurrences k (map LogEntry.level (log_entries w)) with
      | 0 => None
      | S n => Some (S n)
      end /\
    logs_by_source resp !! k =
      match occurrences k (map LogEntry.source (log_entries w)) with
      | 0 => None
      | S n => Some (S n)
      end.
Proof.
  rewrite get_analytics_eq. cbn [healthy db_fails utcnow]. eexists.
  split; [reflexivity|]. split; [apply analytics_of_level | apply analytics_of_source].
Qed.

Lemma recent_activity_of utc logs :
  recent_activity (analytics_of utc logs) = map activity_of (recent_rows utc (map frame_of logs)).
Proof. by destruct logs. Qed.

(** X8. [recent_activity] holds exactly [min 10 n] entries, where [n] is the
    number of rows whose timestamp is at least [utcnow - 24h]: all of them
    when there are ten or fewer, and otherwise the ten that come last in the
    table. It is empty when every row is older, whatever [total_logs] is. *)
Theorem recent_activity_is_the_last_ten (utc local : Z) (jf : bool) (w : World) :
  let in_window := since (utc - timedelta_hours 24) (map frame_of (log_entries w)) in
  exists resp,
    get_analytics (healthy utc local jf) w = (Returned resp, w) /\
    length (recent_activity resp) = Nat.min 10 (length in_window) /\
    recent_activity resp
      = map activity_of (drop (length in_window - 10) in_window) /\
    (length in_window <= 10 -> recent_activity resp = map activity_of in_window).
Proof.
  intros in_window. rewrite get_analytics_eq. cbn [healthy db_fails utcnow]. eexists.
  split; [reflexivity|]. rewrite recent_activity_of. unfold recent_rows, tail.
  fold in_window. split; [|split].
  - rewrite length_map, length_drop. lia.
  - reflexivity.
  - intros Hle. replace (length in_window - 10) with 0 by lia. by rewrite drop_0.
Qed.

(** ** Timestamps and identifiers along a run *)

Lemma run_timestamps_sorted (trace : list (request * Env)) (w : World) :
  StronglySorted Z.le (map LogEntry.timestamp (log_entries w)) ->
  StronglySorted Z.le (clocks trace) ->
  Forall (fun r => Forall (fun c => (LogEntry.timestamp r <= c)%Z) (clocks trace))
         (log_entries w) ->
  StronglySorted Z.le (map LogEntry.timestamp (log_entries (run trace w))).
Proof.
  revert w. induction trace as [|[r env] trace IH]; intros w Hs Hc Hb; [done|].
  cbn [run fold_left fst snd]. fold (run trace (serve r env w)).
  cbn [clocks map snd] in Hc. fold (clocks trace) in Hc.
  apply StronglySorted_inv in Hc as [Hc Hhd].
  assert (Forall (fun r0 => (LogEntry.timestamp r0 <= utcnow env)%Z
                            /\ Forall (fun c => (LogEntry.timestamp r0 <= c)%Z) (clocks trace))
                 (log_entries w)) as Hb'.
  { eapply Forall_impl; [exact Hb|]. intros r0 Hr0. cbn [clocks map snd] in Hr0.
    by apply Forall_cons in Hr0. }
  apply IH; [| done |];
    destruct (serve_log_entries r env w) as [E | (row & E & _ & Hts)]; rewrite E.
  - done.
  - rewrite map_app. apply StronglySorted_app_2; [| done | repeat constructor].
    intros t1 t2 H1 H2. cbn in H2. apply list_elem_of_singleton in H2 as ->.
    apply list_elem_of_In, in_map_iff in H1 as (r0 & <- & Hr0). rewrite Hts.
    rewrite Forall_forall in Hb'. by apply Hb', list_elem_of_In.
  - eapply Forall_impl; [exact Hb'|]. by intros r0 [_ ?].
  - apply Forall_app. split.
    + eapply Forall_impl; [exact Hb'|]. by intros r0 [_ ?].
    + constructor; [|constructor]. by rewrite Hts.
Qed.

Lemma recent_rows_sublist utc df : recent_rows utc df `sublist_of` df.
Proof.
  unfold recent_rows, tail. etrans; [apply sublist_drop | apply since_sublist].
Qed.

(** X9. If the UTC clock read by successive calls never goes back, then
    after any run from start-up the timestamps in the table are
    non-decreasing in insertion order, and the rows behind [recent_activity]
    are in ascending timestamp order. *)
Theorem steady_clock_orders_timestamps (trace : list (request * Env)) (utc : Z) :
  StronglySorted Z.le (clocks trace) ->
  let rows := log_entries (run trace startup) in
  StronglySorted Z.le (map LogEntry.timestamp rows) /\
  StronglySorted Z.le (map Frame.timestamp (recent_rows utc (map frame_of rows))).
Proof.
  intros Hc rows.
  assert (StronglySorted Z.le (map LogEntry.timestamp rows)) as Hs.
  { apply run_timestamps_sorted; [constructor | done | constructor]. }
  split; [done|].
  eapply StronglySorted_sublist; [apply map_sublist, recent_rows_sublist|].
  by rewrite map_frame_timestamp.
Qed.

Lemma foldr_max_seq (m s : nat) (a : Z) :
  (a <= Z.of_nat s)%Z ->
  foldr Z.max a (map Z.of_nat (seq s (S m))) = Z.of_nat (s + m).
Proof.
  revert s. induction m as [|m IH]; intros s Ha.
  - cbn. lia.
  - cbn [seq map foldr] in *. rewrite IH by lia. lia.
Qed.

Lemma next_rowid_consecutive (rows : list LogEntry.t) :
  map LogEntry.id rows = map Z.of_nat (seq 1 (length rows)) ->
  next_rowid rows = Z.of_nat (S (length rows)).
Proof.
  unfold next_rowid. intros ->. destruct (length rows) as [|n]; [reflexivity|].
  cbn [seq map]. destruct n as [|n]; [reflexivity|].
  rewrite foldr_max_seq by lia. lia.
Qed.

Lemma serve_ids_consecutive r env w :
  map LogEntry.id (log_entries w) = map Z.of_nat (seq 1 (length (log_entries w))) ->
  map LogEntry.id (log_entries (serve r env w))
    = map Z.of_nat (seq 1 (length (log_entries (serve r env w)))).
Proof.
  intros Hw. destruct (serve_log_entries r env w) as [-> | (row & -> & Hid & _)]; [done|].
  rewrite length_app, map_app, seq_app, map_app, <- Hw. cbn [length seq map].
  by rewrite Hid, next_rowid_consecutive.
Qed.

(** X10. After any run from start-up the identifiers in the table are
    exactly 1, 2, ..., T in insertion order: numbering starts at 1, leaves
    no gap, and a failed insert uses up no identifier. *)
Theorem ids_are_consecutive_from_one (trace : list (request * Env)) :
  let rows := log_entries (run trace startup) in
  map LogEntry.id rows = map Z.of_nat (seq 1 (length rows)).
Proof.
  cbv zeta.
  assert (forall w, map LogEntry.id (log_entries w) = map Z.of_nat (seq 1 (length (log_entries w))) ->
            map LogEntry.id (log_entries (run trace w))
              = map Z.of_nat (seq 1 (length (log_entries (run trace w))))) as H.
  { induction trace as [|[r env] trace IH]; intros w Hw; [done|].
    cbn [run fold_left fst snd]. apply IH. by apply serve_ids_consecutive. }
  by apply H.
Qed.


(** ** Files, the task queue and what each request leaves alone *)

Lemma serve_files r env w :
  r <> GetExportCsv -> files (serve r env w) = files w.
Proof.
  intros Hr. destruct r; cbn [serve]; [| | |done| |].
  - rewrite create_log_entry_eq. by destruct (_ || _).
  - rewrite get_logs_spec. by destruct (db_fails env).
  - rewrite get_analytics_eq. by destruct (db_fails env).
  - done.
  - destruct (background_tasks w) as [|data pending]; [done|].
    rewrite process_webhook_data_eq. by destruct (_ || _).
Qed.

Lemma run_files trace w :
  Forall (fun re => fst re <> GetExportCsv) trace -> files (run trace w) = files w.
Proof.
  revert w. induction trace as [|[r env] trace IH]; intros w Ht; [done|].
  apply Forall_cons in Ht as [Hr Ht]. cbn [run fold_left fst snd].
  etrans; [by apply IH | by apply serve_files].
Qed.

(** X11. The export file is named after the local time of the call as
    [strftime] renders it, and nothing else. When two exports succeed at
    times that render alike, with any requests other than exports in
    between, the second one replaces the file of the first: afterwards that
    name holds the rows of the table as it was at the second export, and
    every other file is as it was before the first. *)
Theorem export_replaces_file_of_same_name (mid : list (request * Env))
    (utc1 utc2 local1 local2 : Z) (jf1 jf2 : bool) (w : World) :
  strftime local1 = strftime local2 ->
  Forall (fun re => fst re <> GetExportCsv) mid ->
  let name := "logs_export_" +:+ strftime local1 +:+ ".csv" in
  let w2 := run mid (serve GetExportCsv (healthy utc1 local1 jf1) w) in
  let w3 := serve GetExportCsv (healthy utc2 local2 jf2) w2 in
  files w3 = <[name := map export_row_of (log_entries w2)]> (files w) /\
  files w3 !! name = Some (map export_row_of (log_entries w2)) /\
  (forall other, other <> name -> files w3 !! other = files w !! other).
Proof.
  intros Hsame Hmid name w2 w3.
  assert (files w3 = <[name := map export_row_of (log_entries w2)]> (files w)) as E.
  { subst w3. cbn [serve]. rewrite export_logs_csv_eq.
    cbn [healthy db_fails disk_fails orb now snd with_files files].
    rewrite <- Hsame. fold name. subst w2. rewrite run_files by done.
    cbn [serve]. rewrite export_logs_csv_eq.
    cbn [healthy db_fails disk_fails orb now snd with_files files]. fold name.
    apply insert_insert_eq. }
  split; [done|]. rewrite E. split; [apply lookup_insert_eq|].
  intros other Ho. by apply lookup_insert_ne.
Qed.

(** X12. A webhook delivered while no task is pending, followed by one run
    of the background task: the queue is empty again, no file is touched,
    and the table has gained the one derived row when the encoder and the
    storage engine worked, and nothing when either failed. The payload is
    not kept for a retry: a further run of the task changes nothing. *)
Theorem webhook_is_processed_once (data : list (string * value))
    (env1 env2 env3 : Env) (w : World) :
  background_tasks w = [] ->
  let w' := run [(PostWebhook data, env1); (RunBackgroundTask, env2)] w in
  background_tasks w' = [] /\
  files w' = files w /\
  log_entries w' =
    (if json_fails env2 || db_fails env2 then log_entries w
     else log_entries w ++ [webhook_entry data (next_rowid (log_entries w)) (utcnow env2)]) /\
  serve RunBackgroundTask env3 w' = w'.
Proof.
  intros Hq w'. subst w'. cbn [run fold_left fst snd serve].
  rewrite handle_webhook_eq. cbn [snd with_background_tasks background_tasks].
  rewrite Hq. cbn [app]. rewrite process_webhook_data_eq.
  cbn [with_background_tasks log_entries files background_tasks].
  destruct (json_fails env2 || db_fails env2); cbn; done.
Qed.

Lemma dict_get_present (d : list (string * value)) (k : string) (x dflt : value) :
  NoDup (map fst d) -> (k, x) ∈ d -> dict_get d k dflt = x.
Proof.
  induction d as [|[k' x'] d IH]; intros Hnd Hin; [by apply elem_of_nil in Hin|].
  cbn [map fst] in Hnd. apply NoDup_cons in Hnd as [Hk' Hnd].
  cbn [dict_get]. apply elem_of_cons in Hin as [Heq | Hin].
  - inversion Heq; subst. by rewrite String.eqb_refl.
  - destruct (String.eqb_spec k' k) as [->|_]; [|by apply IH].
    exfalso. apply Hk'. apply list_elem_of_In, in_map_iff. exists (k, x).
    split; [done | by apply list_elem_of_In].
Qed.

(** X13. When the payload has an entry for "type", wherever it stands, the
    message of the derived row is "Webhook processed: " followed by
    [str(value)]: the text itself for a string, [None] for null, [True] or
    [False] for a boolean, the decimal numeral for an integer. *)
Theorem webhook_message_names_type (data : list (string * value)) (x : value)
    (utc local : Z) (w : World) :
  NoDup (map fst data) ->
  ("type", x) ∈ data ->
  exists row,
    process_webhook_data data (healthy utc local false) w
      = (Returned tt, with_log_entries (log_entries w ++ [row]) w) /\
    LogEntry.message row = "Webhook processed: " +:+ py_str x /\
    (forall t, x = JStr t -> LogEntry.message row = "Webhook processed: " +:+ t) /\
    (x = JNull -> LogEntry.message row = "Webhook processed: None") /\
    (forall n, x = JInt n -> LogEntry.message row = "Webhook processed: " +:+ int_repr n).
Proof.
  intros Hnd Hin. rewrite process_webhook_data_eq.
  cbn [healthy json_fails db_fails utcnow orb]. eexists. split; [reflexivity|].
  unfold webhook_entry. cbn [LogEntry.init LogEntry.message].
  rewrite (dict_get_present data "type" x) by done.
  repeat split; by intros; subst.
Qed.

(** X14. What each endpoint leaves alone, in every environment and whether
    it succeeds or raises: listing and analytics change nothing at all;
    the export changes at most the files; accepting a webhook only queues
    the payload; creating an entry and the background task change at most
    the table (and the task never raises). *)
Theorem endpoints_touch_only_their_own_state (log_entry : LogEntryCreate.t)
    (skip lim : Z) (level source : option string) (data : list (string * value))
    (env : Env) (w : World) :
  snd (get_logs skip lim level source env w) = w /\
  snd (get_analytics env w) = w /\
  (log_entries (snd (export_logs_csv env w)) = log_entries w /\
   background_tasks (snd (export_logs_csv env w)) = background_tasks w) /\
  (log_entries (snd (handle_webhook data env w)) = log_entries w /\
   files (snd (handle_webhook data env w)) = files w /\
   background_tasks (snd (handle_webhook data env w)) = background_tasks w ++ [data]) /\
  (files (snd (create_log_entry log_entry env w)) = files w /\
   background_tasks (snd (create_log_entry log_entry env w)) = background_tasks w) /\
  (fst (process_webhook_data data env w) = Returned tt /\
   files (snd (process_webhook_data data env w)) = files w /\
   background_tasks (snd (process_webhook_data data env w)) = background_tasks w).
Proof.
  rewrite get_logs_spec, get_analytics_eq, export_logs_csv_eq, handle_webhook_eq,
    create_log_entry_eq, process_webhook_data_eq.
  destruct (db_fails env), (disk_fails env), (json_fails env),
    (truthy_dict (LogEntryCreate.extra_data log_entry)); cbn; done.
Qed.

Lemma extra_of_nonempty (e : LogEntryCreate.t) (kx : string * value) (d : list (string * value)) :
  LogEntryCreate.extra_data e = Some (kx :: d) ->
  extra_of e = Some (dumps (JDict (kx :: d))).
Proof. unfold extra_of. by intros ->. Qed.

(** X15. The blob stored by [create_log_entry] determines the mapping that
    was sent: two requests with non-empty [extra_data] (dict keys distinct)
    whose stored rows have the same [extra_data] column carried the same
    mapping, keys, order and nesting included. *)
Theorem stored_blob_determines_mapping (e1 e2 : LogEntryCreate.t)
    (kx1 kx2 : string * value) (d1 d2 : list (string * value))
    (env1 env2 : Env) (w1 w2 w1' w2' : World) (r1 r2 : LogEntry.t) :
  LogEntryCreate.extra_data e1 = Some (kx1 :: d1) ->
  LogEntryCreate.extra_data e2 = Some (kx2 :: d2) ->
  well_formed (JDict (kx1 :: d1)) ->
  well_formed (JDict (kx2 :: d2)) ->
  create_log_entry e1 env1 w1 = (Returned r1, w1') ->
  create_log_entry e2 env2 w2 = (Returned r2, w2') ->
  LogEntry.extra_data r1 = LogEntry.extra_data r2 ->
  kx1 :: d1 = kx2 :: d2.
Proof.
  intros E1 E2 W1 W2. rewrite !create_log_entry_eq.
  destruct (_ || _); [done|]. destruct (_ || _); [done|].
  intros [= <- _] [= <- _]. unfold created_entry.
  cbn [LogEntry.init LogEntry.extra_data].
  rewrite (extra_of_nonempty _ _ _ E1), (extra_of_nonempty _ _ _ E2). intros Hd.
  assert (dumps (JDict (kx1 :: d1)) = dumps (JDict (kx2 :: d2))) as Hd' by congruence.
  pose proof (loads_dumps _ W1) as L1. pose proof (loads_dumps _ W2) as L2.
  rewrite Hd', L2 in L1. congruence.
Qed.


(** ** The weather endpoint *)

(** X16. [get_weather_data] never raises: whatever [requests.get] does, it
    answers, and the answer holds either data and no error ([success]
    true) or an error and no data ([success] false). The error is one of
    three fixed texts, "Request timeout" exactly for a timeout; nothing of
    the exception is passed on. *)
Theorem weather_answer_is_data_or_error (city : string) (net : requests_get) :
  let r := get_weather_data city net in
  (ExternalAPIResponse.success r = true /\
   is_Some (ExternalAPIResponse.data r) /\ ExternalAPIResponse.error r = None) \/
  (ExternalAPIResponse.success r = false /\
   ExternalAPIResponse.data r = None /\
   (ExternalAPIResponse.error r = Some "Request timeout" /\ net = RaisesTimeout \/
    ExternalAPIResponse.error r = Some "Request failed" /\ net = RaisesRequestException \/
    ExternalAPIResponse.error r = Some "Internal server error" /\ net = RaisesException)).
Proof.
  cbv zeta. destruct net as [status_code json | | |]; unfold get_weather_data.
  - left. destruct (if (status_code =? 200)%Z then json else None);
      cbn [ExternalAPIResponse.success ExternalAPIResponse.data ExternalAPIResponse.error];
      (split; [reflexivity | split; [eexists; reflexivity | reflexivity]]).
  - right. split; [reflexivity | split; [reflexivity | left; split; reflexivity]].
  - right. split; [reflexivity | split; [reflexivity | right; left; split; reflexivity]].
  - right. split; [reflexivity | split; [reflexivity | right; right; split; reflexivity]].
Qed.

(** X17. Every HTTP response, whatever its status, is answered with
    [success] true. The data is the body of the response only for status
    200 with a usable body; for any other status, and for a 200 whose body
    is not usable, it is the mock record, whose [city] is the city that was
    asked for. *)
Theorem weather_response_is_always_success (city : string) (status_code : Z)
    (json : option (list (string * any))) :
  let r := get_weather_data city (Response status_code json) in
  ExternalAPIResponse.success r = true /\
  ExternalAPIResponse.error r = None /\
  (forall body, status_code = 200%Z -> json = Some body ->
     ExternalAPIResponse.data r = Some body) /\
  (status_code <> 200%Z \/ json = None ->
     ExternalAPIResponse.data r = Some (mock_data city) /\
     any_get (mock_data city) "city" = Some (AJson (JStr city))).
Proof.
  cbv zeta. unfold get_weather_data.
  split; [by destruct (if (status_code =? 200)%Z then json else None)|].
  split; [by destruct (if (status_code =? 200)%Z then json else None)|].
  split.
  - intros body -> ->. reflexivity.
  - intros H. split; [|reflexivity].
    destruct H as [H | ->].
    + apply Z.eqb_neq in H. rewrite H. reflexivity.
    + destruct (status_code =? 200)%Z; reflexivity.
Qed.

End Service.

(** * Concrete runs *)

Local Open Scope list_scope.

(** In the runs below the renderings of the runtime play no part. *)
Abbreviation run0 := (run (fun _ => "") (fun _ => "") (fun _ => "")).

(** C2, counterexample to the claim as stated: with three rows and
    [N = 2 <= 3], the query with skip 2 and limit 2 returns one row, not two. *)
Lemma second_page_is_short :
  let w := run0 three_posts startup in
  length (log_entries w) = 3 /\
  exists page2,
    get_logs 2 2 None None (healthy 0 0 false) w = (Returned page2, w) /\
    length page2 = 1 /\ length page2 <> 2.
Proof.
  cbv zeta. split; [reflexivity|]. eexists. split; [|shelve].
  rewrite get_logs_unfiltered. reflexivity.
  Unshelve. split; [reflexivity | discriminate].
Qed.

Lemma pagination_is_contiguous_witness :
  exists page1 page2,
    get_logs 0 2 None None (healthy 0 0 false) (run0 three_posts startup)
      = (Returned page1, run0 three_posts startup) /\
    get_logs 2 2 None None (healthy 0 0 false) (run0 three_posts startup)
      = (Returned page2, run0 three_posts startup) /\
    length page1 = 2 /\ length page2 = 1.
Proof.
  destruct (pagination_is_contiguous (fun _ => "") (fun _ => "") (fun _ => "")
              three_posts 0 0 false 2) as (page1 & page2 & H1 & H2 & _ & L1 & _ & L2 & _).
  - vm_compute. split; discriminate.
  - exists page1, page2. repeat split; [exact H1 | exact H2 | exact L1 | exact L2].
Defined.

(** C1, counterexample to the claim as stated: after two inserts between
    which the clock was set back, both rows are in the window and
    [recent_activity] lists them in insertion order, the later timestamp
    first. *)
Lemma recent_activity_not_ascending :
  let w := run0 clock_set_back startup in
  let rows := recent_rows 3000000 (map frame_of (log_entries w)) in
  (exists resp,
     get_analytics (fun _ => "") (healthy 3000000 3000000 false) w = (Returned resp, w) /\
     recent_activity resp = map (activity_of (fun _ => "")) rows) /\
  map Frame.id rows = [1; 2]%Z /\
  map Frame.timestamp rows = [2000000; 1000000]%Z /\
  ~ Sorted Z.le (map Frame.timestamp rows).
Proof.
  cbv zeta. split; [|split; [reflexivity | split; [reflexivity|]]].
  - eexists. split; [rewrite get_analytics_eq; reflexivity | reflexivity].
  - intros Hs. apply Sorted_inv in Hs as [_ Hs]. apply HdRel_inv in Hs.
    vm_compute in Hs. by apply Hs.
Qed.

Lemma recent_activity_window_witness :
  StronglySorted Z.le
    (map Frame.timestamp
       (recent_rows 4000000 (map frame_of (log_entries (run0 three_posts startup))))).
Proof.
  destruct (recent_activity_window (fun _ => "") 4000000 4000000 false
              (run0 three_posts startup)) as (resp & _ & _ & _ & _ & _ & _ & Hs).
  apply Hs. vm_compute. repeat constructor; discriminate.
Defined.




(** ** Concrete runs for the further properties *)

(** A clock rendered to the second. *)
Abbreviation to_the_second := (fun t : Z => Json.int_repr (t / 1000000)).



Lemma steady_clock_orders_timestamps_witness :
  StronglySorted Z.le (map LogEntry.timestamp (log_entries (run0 three_posts startup))) /\
  StronglySorted Z.le
    (map Frame.timestamp
       (recent_rows 4000000 (map frame_of (log_entries (run0 three_posts startup))))).
Proof.
  apply (steady_clock_orders_timestamps (fun _ => "") (fun _ => "") (fun _ => "")
           three_posts 4000000).
  vm_compute. repeat constructor; discriminate.
Defined.

Lemma export_replaces_file_of_same_name_witness :
  let w2 := run (fun _ => "") to_the_second (fun _ => "")
              [(PostLogs sample_entry, healthy 1600000 1600000 false)]
              (serve (fun _ => "") to_the_second (fun _ => "")
                 GetExportCsv (healthy 1500000 1500000 false) startup) in
  let w3 := serve (fun _ => "") to_the_second (fun _ => "")
              GetExportCsv (healthy 1900000 1900000 false) w2 in
  files w3 !! "logs_export_1.csv" = Some (map export_row_of (log_entries w2)).
Proof.
  cbv zeta.
  destruct (export_replaces_file_of_same_name (fun _ => "") to_the_second (fun _ => "")
              [(PostLogs sample_entry, healthy 1600000 1600000 false)]
              1500000 1900000 1500000 1900000 false false startup)
    as (_ & Hfile & _).
  - reflexivity.
  - constructor; [discriminate | constructor].
  - exact Hfile.
Defined.

Lemma webhook_is_processed_once_witness :
  let w' := run0 [(PostWebhook sample_payload, healthy 0 0 false);
                  (RunBackgroundTask, healthy 1 1 false)] startup in
  background_tasks w' = [] /\
  log_entries w' = [webhook_entry (fun _ => "") sample_payload 1 1].
Proof.
  cbv zeta.
  destruct (webhook_is_processed_once (fun _ => "") (fun _ => "") (fun _ => "")
              sample_payload (healthy 0 0 false) (healthy 1 1 false) (healthy 2 2 false)
              startup eq_refl) as (Hq & _ & Hrows & _).
  split; [exact Hq | exact Hrows].
Defined.

Lemma webhook_message_names_type_witness :
  exists row,
    process_webhook_data (fun _ => "") sample_payload (healthy 0 0 false) startup
      = (Returned tt, with_log_entries [row] startup) /\
    LogEntry.message row = "Webhook processed: user_action".
Proof.
  destruct (webhook_message_names_type (fun _ => "") sample_payload
              (Json.JStr "user_action") 0 0 startup) as (row & Hrow & _ & Hmsg & _).
  - compute_done.
  - unfold sample_payload. constructor.
  - exists row. split; [exact Hrow | exact (Hmsg _ eq_refl)].
Defined.

Lemma stored_blob_determines_mapping_witness :
  [("version", Json.JStr "1.0.0"); ("environment", Json.JStr "test")]
    = [("version", Json.JStr "1.0.0"); ("environment", Json.JStr "test")].
Proof.
  eapply (stored_blob_determines_mapping sample_entry sample_entry
            _ _ _ _ (healthy 0 0 false) (healthy 1 1 false) startup startup).
  - reflexivity.
  - reflexivity.
  - apply well_formed_dict. split; [compute_done | by repeat constructor].
  - apply well_formed_dict. split; [compute_done | by repeat constructor].
  - rewrite create_log_entry_eq. reflexivity.
  - rewrite create_log_entry_eq. reflexivity.
  - reflexivity.
Defined.
